(** * BiconomySmartAccountV2: construction of unsigned user operations

    A shallow embedding of
    [src/modules/rpc/aa/smart-accounts/biconomy-smart-account-v2.ts].

    The class talks to a JSON-RPC provider, to two contracts, to a fee
    service and to a few pure library functions.  All of these lie outside
    the file; they are gathered in the record [Env], one field per
    function, and every use of one of them is appended to a log kept next
    to the instance.  The methods of the class are written in a monad that
    threads the instance (its two cached fields are assigned by the
    methods), the log, and a thrown exception.

    Conventions of the embedding.
    - Numbers.  The fields typed [any] or [BigNumberish] hold numbers in
      one of several JavaScript representations; [BigNumber] (from
      [common/bignumber], which is not among the sources at hand) wraps
      an arbitrary-precision integer.  A numeric value is identified with
      the integer it denotes, in [Z] (module [BigNumber]); the rendering
      [toHexString] is a field of [Env].
    - Hex data returned by ethers and viem ([getCode], a decoded
      [address], [encodeFunctionData]) always starts with [0x]; such a
      reply is a [Hex], the digits that follow the prefix.
    - An [async] method that is called and not awaited yields a promise,
      which carries what it settles to.  The two calls of
      [getAccountAddress] that are not awaited (lines 70 and 100) are
      awaited by a later step of the same method, so they have run by the
      time the method returns: they are executed where they are written
      ([unawaited]).  The call of line 86 is awaited by nobody, and its
      body suspends at its first statement (line 161); it has used no
      collaborator when the build returns ([deferred]).
    - One call of a method sees one [Env]: the collaborators answer the
      same question the same way for the duration of the call.  Between
      calls the environment may be replaced ([run]).
    - [console.log] lines are left out (an awaited call inside one is
      kept). *)

From Stdlib Require Import String Ascii List ZArith Lia Bool HexString.
Import ListNotations.

Local Open Scope string_scope.
Local Open Scope Z_scope.

(* Sums with a literal summand stay folded under [simpl]. *)
#[local] Arguments Z.add : simpl never.

(** ** JavaScript strings *)

Module Js.

(** [s.slice(a, b)] and [s.substring(a, b)] for [0 <= a <= b]. *)
Definition slice (a b : nat) (s : string) : string :=
  substring a (b - a) s.

(** [s.substring(n)]. *)
Fixpoint substring_from (n : nat) (s : string) : string :=
  match n, s with
  | O, _ => s
  | S _, EmptyString => EmptyString
  | S n', String _ s' => substring_from n' s'
  end.

(** [s.replace('0x', '')]: the first occurrence of [0x] is removed. *)
Fixpoint replace_0x (s : string) : string :=
  match s with
  | EmptyString => EmptyString
  | String c s' =>
      if prefix "0x" s then substring_from 2 s else String c (replace_0x s')
  end.

(** Truthiness of a string: every string but the empty one. *)
Definition truthy (s : string) : bool := negb (s =? "")%string.

End Js.

Arguments Js.slice : simpl never.
Arguments Js.substring_from : simpl never.

(** ** Numbers *)

Module BigNumber.

(** Modelled from the spec: [common/bignumber], the module that defines
    [BigNumber], is not among the sources.  The specification describes
    the numeric fields as arbitrary-precision integers that are converted
    to and from hex strings at the boundary; [BigNumber.from] takes a
    numeric value, in whichever representation, to the integer it
    denotes. *)
Definition from (v : Z) : Z := v.

(** Modelled from the spec: [a.eq(b)] of the missing [common/bignumber],
    equality of the integers. *)
Definition eq (a b : Z) : bool := a =? b.

(** Modelled from the spec: [a.add(b)] of the missing [common/bignumber],
    the sum of the integers. *)
Definition add (a b : Z) : Z := a + b.

End BigNumber.

(** Hex data as the libraries return it: [0x] followed by digits. *)
Inductive Hex := Hex0x (digits : string).

Definition hex_string (h : Hex) : string :=
  match h with Hex0x d => "0x" ++ d end.

(** viem's [concat] on hex strings:
    [`0x${values.reduce((acc, x) => acc + x.replace('0x', ''), '')}`]. *)
Definition concat (values : list string) : string :=
  "0x" ++ fold_left (fun acc x => acc ++ Js.replace_0x x) values "".

(** ** Exceptions, promises *)

Inductive Exn :=
| Error (message : string)       (* [throw new Error(message)] of the class *)
| TypeError (property : string)  (* a property read on [undefined] *)
| Rejected (reason : string).    (* a failure of a collaborator *)

Inductive result (A : Type) :=
| Ok (a : A)
| Err (e : Exn).
Arguments Ok {A} a.
Arguments Err {A} e.

(** A field that holds either a value or a promise of one; the promise
    carries what it settles to. *)
Inductive PromiseOrValue (A : Type) :=
| Value (a : A)
| Promise (settles : result A).
Arguments Value {A} a.
Arguments Promise {A} settles.

(** ** Data *)

Record Wallet := { address : string }.

(** [new Contract(target, abi, runner)]. *)
Record Contract := { target : string }.

Record TransactionDetailsForUserOp := {
  gasLimit : option Z;
  value : option Z;
  to : string;
  data : string;
  td_maxPriorityFeePerGas : option Z;
  td_maxFeePerGas : option Z;
  td_nonce : option Z
}.

(** The request object handed to [provider.estimateGas]; [tx_to] is an
    [AddressLike], which ethers resolves before it sends the request. *)
Record TransactionRequest (addr : Type) := {
  tx_from : option string;
  tx_to : addr;
  tx_data : string
}.
Arguments tx_from {addr} _.
Arguments tx_to {addr} _.
Arguments tx_data {addr} _.

Record FeeData := {
  fee_maxFeePerGas : option Z;
  fee_maxPriorityFeePerGas : option Z
}.

(** [partialUserOp], with the type of the sender field left open:
    [PromiseOrValue string] as the class builds it, [string] once
    [resolveProperties] has gone over it. *)
Record UserOp (S : Type) := {
  sender : S;
  nonce : Z;
  initCode : string;
  callData : string;
  callGasLimit : string;
  verificationGasLimit : Z;
  maxFeePerGas : option Z;
  maxPriorityFeePerGas : option Z;
  paymasterAndData : string
}.
Arguments sender {S} _.
Arguments nonce {S} _.
Arguments initCode {S} _.
Arguments callData {S} _.
Arguments callGasLimit {S} _.
Arguments verificationGasLimit {S} _.
Arguments maxFeePerGas {S} _.
Arguments maxPriorityFeePerGas {S} _.
Arguments paymasterAndData {S} _.

Definition PartialUserOp := UserOp (PromiseOrValue string).
Definition ResolvedUserOp := UserOp string.

(** What [createUnsignedUserOp] returns:
    [{...partialUserOp, preVerificationGas, signature}]. *)
Record UnsignedUserOp := {
  partialUserOp : PartialUserOp;
  preVerificationGas : PromiseOrValue Z;
  signature : string
}.

(** ** The collaborators *)

(** A reply of a collaborator: a failure with its reason, or a value. *)
Definition Reply (A : Type) : Type := (string + A)%type.

Record Env := {
  (* smartAccountFactoryContract.getAddressForCounterFactualAccount *)
  getAddressForCounterFactualAccount :
    Contract -> string -> string -> Z -> Reply Hex;
  (* provider.getCode, provider.estimateGas, provider.getNetwork().chainId *)
  getCode : string -> Reply Hex;
  estimateGas : TransactionRequest string -> Reply Z;
  getNetwork : Reply Z;
  (* accountContract.nonce(), a call by name without argument on the handle
     made from smartAccountImplementationABI; ethers rejects the call when
     the ABI has no fragment for it, see Sample.nonce_reply *)
  account_nonce : Contract -> Reply Z;
  (* (await accountContract.execute_ncC.populateTransaction(to, value, data)).data *)
  execute_ncC : Contract -> string -> string -> string -> Reply string;
  (* getFeeDataFromParticle(Number(chainId)) *)
  getFeeDataFromParticle : Z -> Reply FeeData;
  (* calcPreVerificationGas of @account-abstraction/sdk *)
  calcPreVerificationGas : ResolvedUserOp -> Reply Z;
  (* viem's encodeFunctionData for deployCounterFactualAccount(address,bytes,uint256) *)
  encodeFunctionData : string -> string -> Z -> Reply Hex;
  (* BigNumber.prototype.toHexString *)
  toHexString : Z -> string;
  (* arrayify, owner.signMessage, epContract.getUserOpHash *)
  arrayify : string -> Reply string;
  signMessage : Wallet -> string -> Reply string;
  entryPoint_getUserOpHash : Contract -> string -> Reply string
}.

(** One entry of the log per use of a collaborator. *)
Inductive Call :=
| Call_getAddressForCounterFactualAccount (factory : Contract) (module setup : string) (index : Z)
| Call_getCode (addr : string)
| Call_estimateGas (req : TransactionRequest string)
| Call_getNetwork
| Call_nonce (account : Contract)
| Call_execute_ncC (account : Contract) (to value data : string)
| Call_getFeeDataFromParticle (chainId : Z)
| Call_calcPreVerificationGas (p : ResolvedUserOp)
| Call_encodeFunctionData (module setup : string) (index : Z)
| Call_arrayify (userOp : string)
| Call_signMessage (message : string)
| Call_getUserOpHash (userOp : string).

(** ** The instance and the monad *)

Record BiconomySmartAccountV2 := {
  accountAddress : option string;
  smartAccountContract : option Contract;
  epContract : Contract;
  smartAccountFactoryContract : Contract;
  entryPointAddress : string;
  ecdsaOwnership : string;
  owner : Wallet
}.

Definition constructor (owner : Wallet) (factoryAddress entryPointAddress ecdsaModule : string)
  : BiconomySmartAccountV2 :=
  {| accountAddress := None;
     smartAccountContract := None;
     epContract := {| target := entryPointAddress |};
     smartAccountFactoryContract := {| target := factoryAddress |};
     entryPointAddress := entryPointAddress;
     ecdsaOwnership := ecdsaModule;
     owner := owner |}.

Definition set_accountAddress (a : string) (t : BiconomySmartAccountV2) :=
  {| accountAddress := Some a;
     smartAccountContract := smartAccountContract t;
     epContract := epContract t;
     smartAccountFactoryContract := smartAccountFactoryContract t;
     entryPointAddress := entryPointAddress t;
     ecdsaOwnership := ecdsaOwnership t;
     owner := owner t |}.

Definition set_smartAccountContract (c : Contract) (t : BiconomySmartAccountV2) :=
  {| accountAddress := accountAddress t;
     smartAccountContract := Some c;
     epContract := epContract t;
     smartAccountFactoryContract := smartAccountFactoryContract t;
     entryPointAddress := entryPointAddress t;
     ecdsaOwnership := ecdsaOwnership t;
     owner := owner t |}.

Record Machine := {
  this : BiconomySmartAccountV2;
  calls : list Call
}.

Definition fresh (t : BiconomySmartAccountV2) : Machine :=
  {| this := t; calls := [] |}.

Definition M (A : Type) : Type := Machine -> result A * Machine.

Definition ret {A} (a : A) : M A := fun m => (Ok a, m).

Definition throw {A} (e : Exn) : M A := fun m => (Err e, m).

Definition bind {A B} (c : M A) (k : A -> M B) : M B :=
  fun m =>
    match c m with
    | (Ok a, m') => k a m'
    | (Err e, m') => (Err e, m')
    end.

Declare Scope js_scope.
Delimit Scope js_scope with js.
Notation "x <- c ;; k" := (bind c (fun x => k))
  (at level 61, c at next level, right associativity) : js_scope.
Notation "c ;;; k" := (bind c (fun _ => k))
  (at level 61, right associativity) : js_scope.
Local Open Scope js_scope.

Definition self : M BiconomySmartAccountV2 := fun m => (Ok (this m), m).

Definition assign (f : BiconomySmartAccountV2 -> BiconomySmartAccountV2) : M unit :=
  fun m => (Ok tt, {| this := f (this m); calls := calls m |}).

(** A use of a collaborator: logged, then its reply awaited. *)
Definition ask {A} (c : Call) (r : Reply A) : M A :=
  fun m =>
    let m' := {| this := this m; calls := calls m ++ [c] |} in
    match r with
    | inr a => (Ok a, m')
    | inl reason => (Err (Rejected reason), m')
    end.

(** An [async] call that is not awaited here but is awaited by a later
    step of the same method: it has run by then. *)
Definition unawaited {A} (c : M A) : M (PromiseOrValue A) :=
  fun m => let (r, m') := c m in (Ok (Promise r), m').

(** An [async] call that is not awaited at all and whose body suspends
    before it uses a collaborator: the caller goes on with the promise
    and an unchanged machine; the promise settles to what the call
    returns once it runs. *)
Definition deferred {A} (c : M A) : M (PromiseOrValue A) :=
  fun m => (Ok (Promise (fst (c m))), m).

(** [await v] for a value that may be a promise. *)
Definition await {A} (v : PromiseOrValue A) : M A :=
  match v with
  | Value a => ret a
  | Promise (Ok a) => ret a
  | Promise (Err e) => throw e
  end.

(** [o.p] where [o] may be [undefined]. *)
Definition read {T A} (o : option T) (p : T -> A) (name : string) : M A :=
  match o with
  | Some x => ret (p x)
  | None => throw (TypeError name)
  end.

(** [a ?? b]. *)
Definition nullish {A} (a : option A) (b : A) : A :=
  match a with Some x => x | None => b end.

(** ** The methods of the class *)

Section Methods.

Variable env : Env.

(** [resolveProperties(userOp)] of ethers: every property that is a
    promise is awaited. *)
Definition resolveProperties (userOp : PartialUserOp) : M ResolvedUserOp :=
  s <- await (sender userOp) ;;
  ret {| sender := s;
         nonce := nonce userOp;
         initCode := initCode userOp;
         callData := callData userOp;
         callGasLimit := callGasLimit userOp;
         verificationGasLimit := verificationGasLimit userOp;
         maxFeePerGas := maxFeePerGas userOp;
         maxPriorityFeePerGas := maxPriorityFeePerGas userOp;
         paymasterAndData := paymasterAndData userOp |}.

(** [this.provider.estimateGas(request)]: ethers awaits the address
    given as [to], then sends the request. *)
Definition provider_estimateGas (request : TransactionRequest (PromiseOrValue string)) : M Z :=
  to_ <- await (tx_to request) ;;
  let r := {| tx_from := tx_from request; tx_to := to_; tx_data := tx_data request |} in
  ask (Call_estimateGas r) (estimateGas env r).

(** The module setup data of lines 34 and 151: the selector, twelve zero
    bytes, and the 20 bytes of the owner's address. *)
Definition moduleSetupData (t : BiconomySmartAccountV2) : string :=
  "0x2ede3bc0000000000000000000000000" ++ Js.slice 2 42 (address (owner t)).

(** Lines 34-38: the view call on the factory, with index 0, and the
    assignment of the cache. *)
Definition resolveAccountAddress : M string :=
  t <- self ;;
  a <- ask (Call_getAddressForCounterFactualAccount
              (smartAccountFactoryContract t) (ecdsaOwnership t) (moduleSetupData t) 0)
           (getAddressForCounterFactualAccount env
              (smartAccountFactoryContract t) (ecdsaOwnership t) (moduleSetupData t) 0) ;;
  assign (set_accountAddress (hex_string a)) ;;;
  ret (hex_string a).

(** Lines 30-39.  [if (this.accountAddress)] tests truthiness: a cached
    empty string counts as no cache. *)
Definition getAccountAddress : M string :=
  t <- self ;;
  match accountAddress t with
  | Some a => if Js.truthy a then ret a else resolveAccountAddress
  | None => resolveAccountAddress
  end.

(** Lines 182-191. *)
Definition getAccountContract : M Contract :=
  t <- self ;;
  match smartAccountContract t with
  | Some c => ret c
  | None =>
      accountAddress <- getAccountAddress ;;
      assign (set_smartAccountContract {| target := accountAddress |}) ;;;
      ret {| target := accountAddress |}
  end.

(** Lines 125-128. *)
Definition encodeExecute (to_ value_ data_ : string) : M string :=
  simpleAccount <- getAccountContract ;;
  ask (Call_execute_ncC simpleAccount to_ value_ data_)
      (execute_ncC env simpleAccount to_ value_ data_).

(** Lines 91-110.  The argument is [infos[0]], which is [undefined] for an
    empty list.  [to: this.getAccountAddress()] is not awaited. *)
Definition encodeUserOpCallDataAndGasLimit (detailsForUserOp : option TransactionDetailsForUserOp)
  : M (string * string) :=
  v <- read detailsForUserOp value "value" ;;
  let value_ := BigNumber.from (nullish v 0) in
  to_ <- read detailsForUserOp to "to" ;;
  data_ <- read detailsForUserOp data "data" ;;
  callData <- encodeExecute to_ (toHexString env value_) data_ ;;
  g <- read detailsForUserOp gasLimit "gasLimit" ;;
  let callGasLimit := BigNumber.from (nullish g 0) in
  callGasLimit <-
    (if BigNumber.eq callGasLimit 0 then
       t <- self ;;
       account <- unawaited getAccountAddress ;;
       estimate <- provider_estimateGas
         {| tx_from := Some (entryPointAddress t); tx_to := account; tx_data := callData |} ;;
       ret (BigNumber.from estimate)
     else ret callGasLimit) ;;
  ret (callData, toHexString env callGasLimit).

(** Lines 112-123.  [!initCode] holds for [undefined] and for the empty
    string. *)
Definition estimateCreationGas (initCode : option string) : M Z :=
  match initCode with
  | None => ret 0
  | Some initCode =>
      if negb (Js.truthy initCode) || (initCode =? "0x")%string then ret 0
      else
        let deployerAddress := Js.slice 0 42 initCode in
        let deployerCallData := "0x" ++ Js.substring_from 42 initCode in
        provider_estimateGas
          {| tx_from := None; tx_to := Value deployerAddress; tx_data := deployerCallData |}
  end.

(** The address written out at line 132. *)
Definition factory_literal : string := "0x000000a56Aaca3e9a4C479ea6b6CD0DbcB6634F5".

(** Lines 130-154.  The parameter [index = 0] is bound and not used: the
    third argument of the encoded call is the literal [0n]; the first
    element of the concatenation is the literal of line 132. *)
Definition createInitCode (index : option Z) : M string :=
  let index := nullish index 0 in
  t <- self ;;
  encoded <- ask (Call_encodeFunctionData (ecdsaOwnership t) (moduleSetupData t) 0)
                 (encodeFunctionData env (ecdsaOwnership t) (moduleSetupData t) 0) ;;
  ret (concat [factory_literal; hex_string encoded]).

(** Lines 156-158. *)
Definition getVerificationGasLimit : M Z := ret 1500000.

(** Lines 160-164. *)
Definition getPreVerificationGas (userOp : PartialUserOp) : M Z :=
  p <- resolveProperties userOp ;;
  ask (Call_calcPreVerificationGas p) (calcPreVerificationGas env p).

(** Lines 176-180: [code.length > 2]. *)
Definition isAccountDeploied : M bool :=
  accountAddress <- getAccountAddress ;;
  code <- ask (Call_getCode accountAddress) (getCode env accountAddress) ;;
  ret (2 <? String.length (hex_string code))%nat.

(** Lines 166-174. *)
Definition getNonce : M Z :=
  isAccountDeploied <- isAccountDeploied ;;
  if negb isAccountDeploied then ret 0
  else
    accountContract <- getAccountContract ;;
    ask (Call_nonce accountContract) (account_nonce env accountContract).

(** The message of the error of line 43. *)
Definition batch_message : string :=
  "BiconomySmartAccount does not support batch transactions".

(** Lines 41-89.  The parameter [nonce] is overwritten at line 51 before
    it is read.  [sender] (line 70) and [preVerificationGas] (line 86) are
    calls that are not awaited; the call of line 82 is awaited, inside the
    logging statement, and is kept for that reason.  It resolves the
    sender, so the call of line 70 has run when line 82 is done; the call
    of line 86 waits at [await resolveProperties] (line 161) when the
    record is returned. *)
Definition createUnsignedUserOp (infos : list TransactionDetailsForUserOp) (nonce : option Z)
  : M UnsignedUserOp :=
  if (1 <? List.length infos)%nat then throw (Error batch_message)
  else
    let info := nth_error infos 0 in
    cg <- encodeUserOpCallDataAndGasLimit info ;;
    let '(callData, callGasLimit) := cg in
    n <- read info td_nonce "nonce" ;;
    nonce <- match n with Some n => ret n | None => getNonce end ;;
    initCode <- (if BigNumber.eq (BigNumber.from nonce) 0
                 then createInitCode None else ret "0x") ;;
    initGas <- estimateCreationGas (Some initCode) ;;
    base <- getVerificationGasLimit ;;
    let verificationGasLimit := BigNumber.add (BigNumber.from base) initGas in
    chainId <- ask Call_getNetwork (getNetwork env) ;;
    feeData <- ask (Call_getFeeDataFromParticle chainId) (getFeeDataFromParticle env chainId) ;;
    let maxFeePerGas := fee_maxFeePerGas feeData in
    let maxPriorityFeePerGas := fee_maxPriorityFeePerGas feeData in
    sender <- unawaited getAccountAddress ;;
    let partialUserOp : PartialUserOp :=
      {| sender := sender;
         nonce := nonce;
         initCode := initCode;
         callData := callData;
         callGasLimit := callGasLimit;
         verificationGasLimit := verificationGasLimit;
         maxFeePerGas := maxFeePerGas;
         maxPriorityFeePerGas := maxPriorityFeePerGas;
         paymasterAndData := "0x" |} in
    getPreVerificationGas partialUserOp ;;;
    preVerificationGas <- deferred (getPreVerificationGas partialUserOp) ;;
    ret {| partialUserOp := partialUserOp;
           preVerificationGas := preVerificationGas;
           signature := "0x" |}.

(** Line 193. *)
Definition signUserOpHash (userOp : string) : M string :=
  t <- self ;;
  bytes <- ask (Call_arrayify userOp) (arrayify env userOp) ;;
  ask (Call_signMessage bytes) (signMessage env (owner t) bytes).

(** Line 197. *)
Definition getUserOpHash (userOp : string) : M string :=
  t <- self ;;
  ask (Call_getUserOpHash userOp) (entryPoint_getUserOpHash env (epContract t) userOp).

End Methods.

(** ** A concrete environment

    Used to run the methods on concrete inputs.  The owner is
    [0xAAAA...], the destination [0xbbbb...]; the chain either has no code
    at the account address or has the account deployed.  The two encoders
    lay their arguments out as the contract ABI does, behind a four-byte
    selector; the estimates, the fees and the pre-verification gas are
    arbitrary.  The call [accountContract.nonce()] is answered as ethers
    answers it for the ABI of the file, and [arrayify] accepts hex strings
    of whole bytes. *)

Module Sample.

Fixpoint zeros (n : nat) : string :=
  match n with O => "" | S n' => String "0" (zeros n') end.

Definition pad_left (w : nat) (s : string) : string :=
  zeros (w - String.length s) ++ s.

Definition pad_right (w : nat) (s : string) : string :=
  s ++ zeros (w - String.length s).

(** A 32-byte word holding a natural number. *)
Definition word (n : N) : string :=
  pad_left 64 (match n with N0 => "" | Npos p => HexString.Raw.of_pos p "" end).

Definition lower (c : ascii) : ascii :=
  let n := nat_of_ascii c in
  if ((65 <=? n) && (n <=? 70))%nat then ascii_of_nat (n + 32) else c.

Fixpoint lowercase (s : string) : string :=
  match s with
  | EmptyString => EmptyString
  | String c s' => String (lower c) (lowercase s')
  end.

(** ABI encoding of a call [f(address, bytes, uint256)] with the given
    selector: head of three words, then the length and the padded
    contents of the bytes argument. *)
Definition abi_address_bytes_uint (selector addr bytes : string) (n : Z) : Hex :=
  let b := Js.replace_0x bytes in
  let size := Nat.div (String.length b + 1) 2 in
  let padded := Nat.mul (Nat.div (size + 31) 32) 64 in
  Hex0x (selector
         ++ pad_left 64 (lowercase (Js.replace_0x addr))
         ++ word 96
         ++ word (Z.to_N n)
         ++ word (N.of_nat size)
         ++ pad_right padded b).

(** ABI encoding of a call [f(address, uint256, bytes)]. *)
Definition abi_address_uint_bytes (selector addr : string) (n : Z) (bytes : string) : Hex :=
  let b := Js.replace_0x bytes in
  let size := Nat.div (String.length b + 1) 2 in
  let padded := Nat.mul (Nat.div (size + 31) 32) 64 in
  Hex0x (selector
         ++ pad_left 64 (lowercase (Js.replace_0x addr))
         ++ word (Z.to_N n)
         ++ word 96
         ++ word (N.of_nat size)
         ++ pad_right padded b).

Definition ownerAddress : string := "0xAAAAAaAAaAaAaaAaaAAAAAAAAaaaAaAaAaaAaaAa".
Definition destination : string := "0xbbbbbbbbbbbbbbbbbbbbbbbbbbbbbbbbbbbbbbbb".
Definition factoryAddress : string := factory_literal.
Definition otherFactoryAddress : string := "0x1111111111111111111111111111111111111111".
Definition entryPoint : string := "0x5FF137D4b0FDCD49DcA30c7CF57E578a026d2789".
Definition ecdsaModule : string := "0x0000001c5b32F37F5beA87BDD5374eB2aC54eA8e".
Definition counterfactual : Hex := Hex0x "cCcCCccCCcCccCCCcCccccCcCccCcCCCcCcccccc".

(** [/^0x[0-9A-Fa-f]*$/], the test [arrayify] of [@ethersproject/bytes]
    makes on a string. *)
Definition hex_digit (c : ascii) : bool :=
  let n := nat_of_ascii c in
  ((48 <=? n) && (n <=? 57) || (65 <=? n) && (n <=? 70) || (97 <=? n) && (n <=? 102))%nat.

Fixpoint hex_digits (s : string) : bool :=
  match s with
  | EmptyString => true
  | String c s' => hex_digit c && hex_digits s'
  end.

Definition is_hex_string (s : string) : bool :=
  prefix "0x" s && hex_digits (Js.substring_from 2 s).

(** The fragments named [nonce] of [smartAccountImplementationABI]
    (lines 542-548), each by the types of its inputs: there is one,
    [nonce(uint192 _key)]. *)
Definition nonce_fragments : list (list string) := [["uint192"]].

(** The fragments ethers considers for a call by name with [arguments]
    arguments: those with as many inputs, or with one input less when the
    last argument may be the overrides. *)
Definition matching (fragments : list (list string)) (arguments : nat) : list (list string) :=
  filter (fun inputs =>
            (List.length inputs =? arguments)%nat
            || ((0 <? arguments)%nat && (List.length inputs =? arguments - 1)%nat))
         fragments.

(** The call [accountContract.nonce()] of line 173 passes no argument,
    and the handle is built from [smartAccountImplementationABI] (line
    189); without a matching fragment ethers rejects the call. *)
Definition nonce_reply : Reply Z :=
  match matching nonce_fragments 0 with
  | [] => inl "no matching fragment"
  | _ => inr 3
  end.

Definition env (deployed : bool) : Env :=
  {| getAddressForCounterFactualAccount := fun _ _ _ _ => inr counterfactual;
     getCode := fun _ => inr (Hex0x (if deployed then "6080604052" else ""));
     estimateGas := fun r =>
       inr (match tx_from r with Some _ => 50000 | None => 300000 end);
     getNetwork := inr 137;
     account_nonce := fun _ => nonce_reply;
     execute_ncC := fun _ to_ value_ data_ =>
       inr (hex_string (abi_address_uint_bytes "0000189a" to_ (HexString.to_Z value_) data_));
     getFeeDataFromParticle := fun _ =>
       inr {| fee_maxFeePerGas := Some 30000000000;
              fee_maxPriorityFeePerGas := Some 1500000000 |};
     calcPreVerificationGas := fun p =>
       inr (21000 + 8 * Z.of_nat (String.length (initCode p) + String.length (callData p)));
     encodeFunctionData := fun module setup index =>
       inr (abi_address_bytes_uint "df20ffbc" module setup index);
     toHexString := HexString.of_Z;
     arrayify := fun s =>
       if negb (is_hex_string s) then inl "invalid arrayify value"
       else if Nat.odd (String.length s) then inl "hex data is odd-length"
       else inr s;
     signMessage := fun _ s => inr ("0x" ++ s);
     entryPoint_getUserOpHash := fun _ s => inr ("0x" ++ s) |}.

Definition owner : Wallet := {| address := ownerAddress |}.

Definition account : BiconomySmartAccountV2 :=
  constructor owner factoryAddress entryPoint ecdsaModule.

Definition details (gas nonce : option Z) : TransactionDetailsForUserOp :=
  {| gasLimit := gas;
     value := Some 0;
     to := destination;
     data := "0x";
     td_maxPriorityFeePerGas := None;
     td_maxFeePerGas := None;
     td_nonce := nonce |}.

Definition batch : list TransactionDetailsForUserOp :=
  [details None None; details (Some 21000) None].

End Sample.

(** ** Invariants, scripts of calls, and the statements to settle *)

(** The immutable part of an instance, fixed by [constructor]. *)
Definition config (t : BiconomySmartAccountV2) :=
  (epContract t, smartAccountFactoryContract t, entryPointAddress t, ecdsaOwnership t, owner t).

(** The cached contract handle, when there is one, points at the cached
    address.  [getAccountContract] is the only method that assigns the
    handle, and it does so from [getAccountAddress]. *)
Definition consistent (t : BiconomySmartAccountV2) : Prop :=
  forall c, smartAccountContract t = Some c ->
            accountAddress t = Some (target c) /\ Js.truthy (target c) = true.

(** How a machine may change while methods run: the configuration stays,
    a cached address and a cached handle stay, consistency stays, and the
    log only grows. *)
Record evolves (m m' : Machine) : Prop := {
  ev_config : config (this m') = config (this m);
  ev_address : forall a, accountAddress (this m) = Some a -> Js.truthy a = true ->
                         accountAddress (this m') = Some a;
  ev_contract : forall c, smartAccountContract (this m) = Some c ->
                          smartAccountContract (this m') = Some c;
  ev_consistent : consistent (this m) -> consistent (this m');
  ev_calls : exists l, calls m' = (calls m ++ l)%list
}.

Definition steady {A} (c : M A) : Prop :=
  forall m r m', c m = (r, m') -> evolves m m'.

(** A computation that never throws an [Error] of the class itself. *)
Definition Error_free {A} (c : M A) : Prop :=
  forall m e m', c m = (Err e, m') -> forall msg, e <> Error msg.

(** A promise-or-value whose promise, if rejected, is not rejected with an
    [Error] of the class. *)
Definition clean {A} (v : PromiseOrValue A) : Prop :=
  forall msg, v <> Promise (Err (Error msg)).

(** The public methods, as commands on an instance. *)
Inductive Op :=
| Op_getAccountAddress
| Op_createUnsignedUserOp (infos : list TransactionDetailsForUserOp) (nonce : option Z)
| Op_encodeUserOpCallDataAndGasLimit (detailsForUserOp : option TransactionDetailsForUserOp)
| Op_estimateCreationGas (initCode : option string)
| Op_encodeExecute (to value data : string)
| Op_createInitCode (index : option Z)
| Op_getVerificationGasLimit
| Op_getPreVerificationGas (userOp : PartialUserOp)
| Op_getNonce
| Op_isAccountDeploied
| Op_getAccountContract
| Op_signUserOpHash (userOp : string)
| Op_getUserOpHash (userOp : string).

(** One call of a method, against the world [env] of that moment; what it
    returns or throws goes to the caller, the machine is what stays. *)
Definition perform (step : Env * Op) (m : Machine) : Machine :=
  let (env, op) := step in
  match op with
  | Op_getAccountAddress => snd (getAccountAddress env m)
  | Op_createUnsignedUserOp infos nonce => snd (createUnsignedUserOp env infos nonce m)
  | Op_encodeUserOpCallDataAndGasLimit d => snd (encodeUserOpCallDataAndGasLimit env d m)
  | Op_estimateCreationGas i => snd (estimateCreationGas env i m)
  | Op_encodeExecute t v d => snd (encodeExecute env t v d m)
  | Op_createInitCode i => snd (createInitCode env i m)
  | Op_getVerificationGasLimit => snd (getVerificationGasLimit m)
  | Op_getPreVerificationGas u => snd (getPreVerificationGas env u m)
  | Op_getNonce => snd (getNonce env m)
  | Op_isAccountDeploied => snd (isAccountDeploied env m)
  | Op_getAccountContract => snd (getAccountContract env m)
  | Op_signUserOpHash u => snd (signUserOpHash env u m)
  | Op_getUserOpHash u => snd (getUserOpHash env u m)
  end.

Definition run (script : list (Env * Op)) (m : Machine) : Machine :=
  fold_left (fun m step => perform step m) script m.

(** [resolveProperties] as a function, for a sender known to be [a]. *)
Definition resolved (a : string) (u : PartialUserOp) : ResolvedUserOp :=
  {| sender := a;
     nonce := nonce u;
     initCode := initCode u;
     callData := callData u;
     callGasLimit := callGasLimit u;
     verificationGasLimit := verificationGasLimit u;
     maxFeePerGas := maxFeePerGas u;
     maxPriorityFeePerGas := maxPriorityFeePerGas u;
     paymasterAndData := paymasterAndData u |}.

(** The request [estimateCreationGas] sends for a non-empty init-code:
    the first 20 bytes ([0x] and 40 digits) are the deployer, the rest is
    the call data. *)
Definition creation_request (initCode : string) : TransactionRequest string :=
  {| tx_from := None;
     tx_to := Js.slice 0 42 initCode;
     tx_data := "0x" ++ Js.substring_from 42 initCode |}.

(** The machine after one more use of a collaborator. *)
Definition logged (c : Call) (m : Machine) : Machine :=
  {| this := this m; calls := (calls m ++ [c])%list |}.

(** The request [encodeUserOpCallDataAndGasLimit] sends when it has to
    estimate: the call data, from the EntryPoint, to the account. *)
Definition call_request (t : BiconomySmartAccountV2) (account callData : string)
  : TransactionRequest string :=
  {| tx_from := Some (entryPointAddress t); tx_to := account; tx_data := callData |}.

(** A successful build, step by step.  [m1] ... [m5] are the machines
    between the steps. *)
Definition anatomy (env : Env) (m : Machine) (d : TransactionDetailsForUserOp)
    (op : UnsignedUserOp) (m' : Machine) : Prop :=
  let u := partialUserOp op in
  exists m1 m2 m3 m4 m5 initGas chainId feeData a g,
    encodeUserOpCallDataAndGasLimit env (Some d) m = (Ok (callData u, callGasLimit u), m1)
    /\ match td_nonce d with Some n => ret n | None => getNonce env end m1 = (Ok (nonce u), m2)
    /\ (if nonce u =? 0 then createInitCode env None else ret "0x") m2 = (Ok (initCode u), m3)
    /\ estimateCreationGas env (Some (initCode u)) m3 = (Ok initGas, m4)
    /\ verificationGasLimit u = 1500000 + initGas
    /\ getNetwork env = inr chainId
    /\ getFeeDataFromParticle env chainId = inr feeData
    /\ maxFeePerGas u = fee_maxFeePerGas feeData
    /\ maxPriorityFeePerGas u = fee_maxPriorityFeePerGas feeData
    /\ paymasterAndData u = "0x"
    /\ getAccountAddress env
         (logged (Call_getFeeDataFromParticle chainId) (logged Call_getNetwork m4))
       = (Ok a, m5)
    /\ sender u = Promise (Ok a)
    /\ calcPreVerificationGas env (resolved a u) = inr g
    /\ preVerificationGas op = Promise (Ok g)
    /\ signature op = "0x"
    /\ m' = logged (Call_calcPreVerificationGas (resolved a u)) m5.

(** C9 as the specification states it: the sender field holds the
    address string itself. *)
Definition sender_is_the_address (env : Env) (infos : list TransactionDetailsForUserOp)
    (n : option Z) (m : Machine) : Prop :=
  forall op m', createUnsignedUserOp env infos n m = (Ok op, m') ->
    exists a, sender (partialUserOp op) = Value a
              /\ getAccountAddress env m' = (Ok a, m').

(** C2 as the specification states it: the preVerificationGas field holds
    the integer that [calcPreVerificationGas] returns for the assembled
    record. *)
Definition preVerificationGas_is_the_integer (env : Env)
    (infos : list TransactionDetailsForUserOp) (n : option Z) (m : Machine) : Prop :=
  forall op m', createUnsignedUserOp env infos n m = (Ok op, m') ->
    exists a g, preVerificationGas op = Value g
                /\ calcPreVerificationGas env (resolved a (partialUserOp op)) = inr g.

(** C3 as the specification states it: the factory address is the one
    given to the constructor and the index the one given to the call. *)
Definition createInitCode_as_specified (env : Env) (index : option Z) : M string :=
  t <- self ;;
  encoded <- ask (Call_encodeFunctionData (ecdsaOwnership t) (moduleSetupData t) (nullish index 0))
                 (encodeFunctionData env (ecdsaOwnership t) (moduleSetupData t)
                    (nullish index 0)) ;;
  ret (concat [target (smartAccountFactoryContract t); hex_string encoded]).

(** ** Further vocabulary: caches, logs, failures *)

(** The address [a] is cached (a non-empty string). *)
Definition cached (a : string) (m : Machine) : Prop :=
  accountAddress (this m) = Some a /\ Js.truthy a = true.

(** Both caches are filled, and the handle points at the address. *)
Definition warm (a : string) (m : Machine) : Prop :=
  cached a m /\ smartAccountContract (this m) = Some {| target := a |}.

Definition is_factory_call (c : Call) : bool :=
  match c with
  | Call_getAddressForCounterFactualAccount _ _ _ _ => true
  | _ => false
  end.

(** The two questions about the state of the account on chain. *)
Definition is_account_query (c : Call) : bool :=
  match c with
  | Call_getCode _ | Call_nonce _ => true
  | _ => false
  end.

Definition is_estimateGas (c : Call) : bool :=
  match c with
  | Call_estimateGas _ => true
  | _ => false
  end.

Definition is_calcPreVerificationGas (c : Call) : bool :=
  match c with
  | Call_calcPreVerificationGas _ => true
  | _ => false
  end.

Definition no_factory_call (c : Call) : bool := negb (is_factory_call c).
Definition no_account_query (c : Call) : bool := negb (is_account_query c).
Definition no_estimateGas (c : Call) : bool := negb (is_estimateGas c).
Definition no_calcPreVerificationGas (c : Call) : bool := negb (is_calcPreVerificationGas c).

(** From a machine that satisfies [I], the computation keeps [I], and every
    entry it adds to the log satisfies [P]. *)
Definition silent (I : Machine -> Prop) (P : Call -> bool) {A} (c : M A) : Prop :=
  forall m r m', I m -> c m = (r, m') ->
    I m' /\ exists l, calls m' = (calls m ++ l)%list /\ forallb P l = true.

Definition anywhere : Machine -> Prop := fun _ => True.

Definition failure_of {A} (r : Reply A) : option string :=
  match r with inl reason => Some reason | inr _ => None end.

(** The reason with which the collaborator behind a log entry fails in
    [env], if it does. *)
Definition failure (env : Env) (t : BiconomySmartAccountV2) (c : Call) : option string :=
  match c with
  | Call_getAddressForCounterFactualAccount f module setup index =>
      failure_of (getAddressForCounterFactualAccount env f module setup index)
  | Call_getCode a => failure_of (getCode env a)
  | Call_estimateGas r => failure_of (estimateGas env r)
  | Call_getNetwork => failure_of (getNetwork env)
  | Call_nonce c => failure_of (account_nonce env c)
  | Call_execute_ncC c to_ value_ data_ => failure_of (execute_ncC env c to_ value_ data_)
  | Call_getFeeDataFromParticle chainId => failure_of (getFeeDataFromParticle env chainId)
  | Call_calcPreVerificationGas p => failure_of (calcPreVerificationGas env p)
  | Call_encodeFunctionData module setup index =>
      failure_of (encodeFunctionData env module setup index)
  | Call_arrayify u => failure_of (arrayify env u)
  | Call_signMessage message => failure_of (signMessage env (owner t) message)
  | Call_getUserOpHash u => failure_of (entryPoint_getUserOpHash env (epContract t) u)
  end.

(** The exception [e] is the rejection of the collaborator that was used
    last: same reason, and nothing was used after it. *)
Definition blamed (env : Env) (m : Machine) (e : Exn) : Prop :=
  exists reason l c,
    e = Rejected reason
    /\ calls m = (l ++ [c])%list
    /\ failure env (this m) c = Some reason.

(** A computation whose exceptions are all of that kind. *)
Definition faithful (env : Env) {A} (c : M A) : Prop :=
  forall m e m', c m = (Err e, m') -> blamed env m' e.

(** The collaborator behind a log entry answers in [env]. *)
Definition answered (env : Env) (t : BiconomySmartAccountV2) (c : Call) : bool :=
  match failure env t c with
  | None => true
  | Some _ => false
  end.

(** A computation that only adds to the log. *)
Definition grows {A} (c : M A) : Prop :=
  forall m r m', c m = (r, m') -> exists l, calls m' = (calls m ++ l)%list.

(** The exception [e] of a run from [m] to [m'] is the rejection of a
    collaborator that was used during that run, the one used last: same
    reason, and nothing was used after it. *)
Definition blamed_since (env : Env) (m m' : Machine) (e : Exn) : Prop :=
  exists reason l c,
    e = Rejected reason
    /\ calls m' = (calls m ++ l ++ [c])%list
    /\ failure env (this m') c = Some reason.

(** A computation whose exceptions are all of that kind. *)
Definition faithful_since (env : Env) {A} (c : M A) : Prop :=
  forall m e m', c m = (Err e, m') -> blamed_since env m m' e.

(** [awaits_since p c]: an exception of [c] is either the rejection of
    the promise [p], rethrown before anything is done, or one of that
    kind. *)
Definition awaits_since (env : Env) {A B} (p : PromiseOrValue A) (c : M B) : Prop :=
  forall m e m', c m = (Err e, m') ->
    (p = Promise (Err e) /\ m' = m) \/ blamed_since env m m' e.

(** There is code: the reply of [getCode] has digits after [0x]. *)
Definition has_code (code : Hex) : bool :=
  match code with
  | Hex0x EmptyString => false
  | Hex0x (String _ _) => true
  end.

(** ** The build as a function of the replies *)

Definition answer {A} (r : Reply A) : result A :=
  match r with
  | inl reason => Err (Rejected reason)
  | inr a => Ok a
  end.

Definition and_then {A B} (r : result A) (k : A -> result B) : result B :=
  match r with
  | Ok a => k a
  | Err e => Err e
  end.

(** The address an instance stands for in [env]: the cached one, or else
    the answer of the factory. *)
Definition address_of (env : Env) (t : BiconomySmartAccountV2) : result string :=
  let resolution :=
    and_then (answer (getAddressForCounterFactualAccount env (smartAccountFactoryContract t)
                        (ecdsaOwnership t) (moduleSetupData t) 0))
             (fun h => Ok (hex_string h)) in
  match accountAddress t with
  | Some a => if Js.truthy a then Ok a else resolution
  | None => resolution
  end.

Definition encode_of (env : Env) (t : BiconomySmartAccountV2) (a : string)
    (d : TransactionDetailsForUserOp) : result (string * string) :=
  and_then (answer (execute_ncC env {| target := a |} (to d)
                      (toHexString env (nullish (value d) 0)) (data d)))
    (fun cd =>
       and_then (if nullish (gasLimit d) 0 =? 0
                 then answer (estimateGas env (call_request t a cd))
                 else Ok (nullish (gasLimit d) 0))
         (fun g => Ok (cd, toHexString env g))).

Definition nonce_of (env : Env) (a : string) (d : TransactionDetailsForUserOp) : result Z :=
  match td_nonce d with
  | Some k => Ok k
  | None =>
      and_then (answer (getCode env a))
        (fun code =>
           if has_code code then answer (account_nonce env {| target := a |}) else Ok 0)
  end.

Definition initCode_of (env : Env) (t : BiconomySmartAccountV2) (nonce : Z) : result string :=
  if nonce =? 0 then
    and_then (answer (encodeFunctionData env (ecdsaOwnership t) (moduleSetupData t) 0))
      (fun h => Ok (concat [factory_literal; hex_string h]))
  else Ok "0x".

Definition creationGas_of (env : Env) (ic : string) : result Z :=
  if negb (Js.truthy ic) || (ic =? "0x")%string then Ok 0
  else answer (estimateGas env (creation_request ic)).

(** The operation that a build for the details [d] returns, for the
    account address [a]: each step either passes its value on or stops
    the build with the rejection of its collaborator. *)
Definition operation_of (env : Env) (t : BiconomySmartAccountV2) (a : string)
    (d : TransactionDetailsForUserOp) : result UnsignedUserOp :=
  and_then (encode_of env t a d) (fun cg =>
  and_then (nonce_of env a d) (fun nonce_ =>
  and_then (initCode_of env t nonce_) (fun ic =>
  and_then (creationGas_of env ic) (fun initGas =>
  and_then (answer (getNetwork env)) (fun chainId =>
  and_then (answer (getFeeDataFromParticle env chainId)) (fun feeData =>
  let u : PartialUserOp :=
    {| sender := Promise (Ok a);
       nonce := nonce_;
       initCode := ic;
       callData := fst cg;
       callGasLimit := snd cg;
       verificationGasLimit := 1500000 + initGas;
       maxFeePerGas := fee_maxFeePerGas feeData;
       maxPriorityFeePerGas := fee_maxPriorityFeePerGas feeData;
       paymasterAndData := "0x" |} in
  and_then (answer (calcPreVerificationGas env (resolved a u))) (fun g =>
  Ok {| partialUserOp := u;
        preVerificationGas := Promise (Ok g);
        signature := "0x" |}))))))).

(** ** Basic facts about the monad *)

Lemma bind_Ok {A B} (c : M A) (k : A -> M B) m b m' :
  bind c k m = (Ok b, m') ->
  exists a m1, c m = (Ok a, m1) /\ k a m1 = (Ok b, m').
Proof.
  unfold bind. destruct (c m) as [[a | e] m1]; intros H.
  - exists a, m1. split; [reflexivity | exact H].
  - discriminate H.
Qed.

Lemma bind_Err {A B} (c : M A) (k : A -> M B) m e m' :
  bind c k m = (Err e, m') ->
  c m = (Err e, m') \/ exists a m1, c m = (Ok a, m1) /\ k a m1 = (Err e, m').
Proof.
  unfold bind. destruct (c m) as [[a | e0] m1]; intros H.
  - right. exists a, m1. split; [reflexivity | exact H].
  - left. inversion H. reflexivity.
Qed.

Lemma ret_Ok {A} (a b : A) m m' : ret a m = (Ok b, m') -> b = a /\ m' = m.
Proof. unfold ret. intros H. inversion H. split; reflexivity. Qed.

Lemma self_Ok t m m' : self m = (Ok t, m') -> t = this m /\ m' = m.
Proof. unfold self. intros H. inversion H. split; reflexivity. Qed.

Lemma ask_Ok {A} c (r : Reply A) m a m' :
  ask c r m = (Ok a, m') ->
  r = inr a /\ m' = {| this := this m; calls := (calls m ++ [c])%list |}.
Proof.
  unfold ask. destruct r as [reason | x]; intros H; inversion H.
  split; reflexivity.
Qed.

Lemma unawaited_Ok {A} (c : M A) m p m' :
  unawaited c m = (Ok p, m') -> exists r, c m = (r, m') /\ p = Promise r.
Proof.
  unfold unawaited. destruct (c m) as [r m1]. intros H. inversion H.
  exists r. split; reflexivity.
Qed.

Lemma await_Ok {A} (v : PromiseOrValue A) m a m' :
  await v m = (Ok a, m') -> m' = m /\ (v = Value a \/ v = Promise (Ok a)).
Proof.
  destruct v as [x | [x | e]]; simpl; unfold ret, throw; intros H; inversion H.
  - split; [reflexivity | left; reflexivity].
  - split; [reflexivity | right; reflexivity].
Qed.

Lemma read_Ok {T A} (o : option T) (p : T -> A) name m a m' :
  read o p name m = (Ok a, m') -> exists x, o = Some x /\ a = p x /\ m' = m.
Proof.
  destruct o as [x |]; simpl; unfold ret, throw; intros H; inversion H.
  exists x. repeat split.
Qed.

(** Breaks a successful run of a sequence of binds into its first step,
    with result [a] and machine [m1], and the rest. *)
Tactic Notation "unbind" hyp(H) "as" ident(a) ident(m1) ident(H1) :=
  apply bind_Ok in H; destruct H as (a & m1 & H1 & H).

Lemma truthy_hex_string h : Js.truthy (hex_string h) = true.
Proof. destruct h as [[| c d]]; reflexivity. Qed.

Lemma hex_string_length h :
  (2 <? String.length (hex_string h))%nat = true <-> h <> Hex0x "".
Proof.
  destruct h as [d]. simpl. destruct d as [| c d]; simpl.
  - split; [discriminate | intros H; exfalso; apply H; reflexivity].
  - split; [intros _; discriminate | reflexivity].
Qed.

(** ** Machines only evolve *)

Lemma evolves_refl m : evolves m m.
Proof.
  split; auto. exists []. symmetry. apply app_nil_r.
Qed.

Lemma evolves_trans m1 m2 m3 : evolves m1 m2 -> evolves m2 m3 -> evolves m1 m3.
Proof.
  intros [c1 a1 k1 i1 [l1 e1]] [c2 a2 k2 i2 [l2 e2]]. split.
  - rewrite c2. exact c1.
  - intros a Ha Ht. apply a2; [apply a1; assumption | exact Ht].
  - intros c Hc. apply k2, k1, Hc.
  - intros Hi. apply i2, i1, Hi.
  - exists (l1 ++ l2)%list. rewrite e2, e1. symmetry. apply app_assoc.
Qed.

Lemma evolves_log m c :
  evolves m {| this := this m; calls := (calls m ++ [c])%list |}.
Proof.
  split; simpl; auto. exists [c]. reflexivity.
Qed.

Lemma deferred_Ok {A} (c : M A) m p m' :
  deferred c m = (Ok p, m') -> p = Promise (fst (c m)) /\ m' = m.
Proof. unfold deferred. intros H. inversion H. split; reflexivity. Qed.

Lemma steady_ret {A} (a : A) : steady (ret a).
Proof. intros m r m' H. inversion H. apply evolves_refl. Qed.

Lemma steady_throw {A} e : steady (@throw A e).
Proof. intros m r m' H. inversion H. apply evolves_refl. Qed.

Lemma steady_self : steady self.
Proof. intros m r m' H. inversion H. apply evolves_refl. Qed.

Lemma steady_bind {A B} (c : M A) (k : A -> M B) :
  steady c -> (forall a, steady (k a)) -> steady (bind c k).
Proof.
  intros Hc Hk m r m'. unfold bind.
  destruct (c m) as [[a | e] m1] eqn:E; intros H.
  - eapply evolves_trans; [eapply Hc, E | eapply Hk, H].
  - inversion H; subst. eapply Hc, E.
Qed.

Lemma steady_ask {A} c (r : Reply A) : steady (ask c r).
Proof.
  intros m x m'. unfold ask. destruct r; intros H; inversion H; apply evolves_log.
Qed.

Lemma steady_unawaited {A} (c : M A) : steady c -> steady (unawaited c).
Proof.
  intros Hc m r m'. unfold unawaited. destruct (c m) as [x m1] eqn:E.
  intros H. inversion H; subst. eapply Hc, E.
Qed.

Lemma steady_deferred {A} (c : M A) : steady (deferred c).
Proof. intros m r m' H. inversion H. apply evolves_refl. Qed.

Lemma steady_await {A} (v : PromiseOrValue A) : steady (await v).
Proof.
  destruct v as [a | [a | e]]; simpl; [apply steady_ret | apply steady_ret | apply steady_throw].
Qed.

Lemma steady_read {T A} (o : option T) (p : T -> A) name : steady (read o p name).
Proof. destruct o; simpl; [apply steady_ret | apply steady_throw]. Qed.

Create HintDb steady.

#[local] Hint Resolve steady_ret steady_throw steady_self steady_ask steady_await
  steady_read steady_unawaited steady_deferred : steady.

Ltac steady_steps :=
  repeat first
    [ solve [auto with steady]
    | match goal with
      | |- steady (bind _ _) => apply steady_bind; [| intro]
      | |- steady (match ?x with _ => _ end) => destruct x
      | |- steady (if ?b then _ else _) => destruct b
      | |- steady (let '(_, _) := ?p in _) => destruct p
      end ].

(** ** The address cache *)

Lemma resolveAccountAddress_spec env m r m' :
  resolveAccountAddress env m = (r, m') ->
  (forall a, accountAddress (this m) = Some a -> Js.truthy a = false) ->
  evolves m m'
  /\ smartAccountContract (this m') = smartAccountContract (this m)
  /\ forall a, r = Ok a -> accountAddress (this m') = Some a /\ Js.truthy a = true.
Proof.
  intros H Hfalsy. unfold resolveAccountAddress, bind, self, ask, assign, ret in H.
  set (c := Call_getAddressForCounterFactualAccount
              (smartAccountFactoryContract (this m)) (ecdsaOwnership (this m))
              (moduleSetupData (this m)) 0) in H.
  destruct (getAddressForCounterFactualAccount env _ _ _ _) as [reason | h];
    inversion H; subst; clear H; simpl.
  - split; [apply evolves_log |]. split; [reflexivity | discriminate].
  - split; [| split; [reflexivity |]].
    + split; simpl.
      * reflexivity.
      * intros a Ha Ht. rewrite (Hfalsy a Ha) in Ht. discriminate Ht.
      * auto.
      * intros Hc k Hsome. destruct (Hc k Hsome) as [Ha Ht].
        rewrite (Hfalsy _ Ha) in Ht. discriminate Ht.
      * exists [c]. reflexivity.
    + intros a Ha. inversion Ha; subst. split; [reflexivity | apply truthy_hex_string].
Qed.

Lemma getAccountAddress_spec env m r m' :
  getAccountAddress env m = (r, m') ->
  evolves m m'
  /\ smartAccountContract (this m') = smartAccountContract (this m)
  /\ forall a, r = Ok a -> accountAddress (this m') = Some a /\ Js.truthy a = true.
Proof.
  unfold getAccountAddress, bind, self.
  destruct (accountAddress (this m)) as [a0 |] eqn:Ea.
  - destruct (Js.truthy a0) eqn:Et.
    + unfold ret. intros H. inversion H; subst. split; [apply evolves_refl |].
      split; [reflexivity |]. intros a Hr. inversion Hr; subst. split; assumption.
    + intros H. apply (resolveAccountAddress_spec _ _ _ _ H).
      intros a Ha. rewrite Ea in Ha. inversion Ha; subst. exact Et.
  - intros H. apply (resolveAccountAddress_spec _ _ _ _ H).
    intros a Ha. rewrite Ea in Ha. discriminate Ha.
Qed.

(** Once an address is cached, [getAccountAddress] returns it and touches
    nothing: neither the instance nor the log. *)
Lemma getAccountAddress_cached env m a :
  accountAddress (this m) = Some a -> Js.truthy a = true ->
  getAccountAddress env m = (Ok a, m).
Proof.
  intros Ha Ht. unfold getAccountAddress, bind, self. rewrite Ha, Ht. reflexivity.
Qed.

Lemma steady_getAccountAddress env : steady (getAccountAddress env).
Proof. intros m r m' H. apply (getAccountAddress_spec _ _ _ _ H). Qed.

#[local] Hint Resolve steady_getAccountAddress : steady.

Lemma getAccountContract_spec env m r m' :
  getAccountContract env m = (r, m') ->
  evolves m m'
  /\ forall c, r = Ok c ->
       smartAccountContract (this m') = Some c
       /\ (consistent (this m) ->
           accountAddress (this m') = Some (target c) /\ Js.truthy (target c) = true).
Proof.
  unfold getAccountContract, bind, self.
  destruct (smartAccountContract (this m)) as [c0 |] eqn:Ec.
  - unfold ret. intros H. inversion H; subst. split; [apply evolves_refl |].
    intros c Hr. inversion Hr; subst. split; [exact Ec |].
    intros Hc. apply Hc, Ec.
  - destruct (getAccountAddress env m) as [[a | e] m1] eqn:Eg.
    + destruct (getAccountAddress_spec _ _ _ _ Eg) as (Hev & Hk & Ha).
      destruct (Ha a eq_refl) as [Hcache Ht].
      unfold assign, ret. intros H. inversion H; subst; clear H. split.
      * eapply evolves_trans; [exact Hev |].
        split; simpl; auto.
        -- intros c Hsome. rewrite Hk, Ec in Hsome. discriminate Hsome.
        -- intros _ c Hsome. inversion Hsome; subst. simpl. split; assumption.
        -- exists []. symmetry. apply app_nil_r.
      * intros c Hr. inversion Hr; subst. simpl. repeat split; assumption.
    + intros H. inversion H; subst. split.
      * apply (getAccountAddress_spec _ _ _ _ Eg).
      * discriminate.
Qed.

Lemma steady_getAccountContract env : steady (getAccountContract env).
Proof. intros m r m' H. apply (getAccountContract_spec _ _ _ _ H). Qed.

#[local] Hint Resolve steady_getAccountContract : steady.

Lemma steady_provider_estimateGas env request : steady (provider_estimateGas env request).
Proof. unfold provider_estimateGas. steady_steps. Qed.

#[local] Hint Resolve steady_provider_estimateGas : steady.

Lemma steady_encodeExecute env t v d : steady (encodeExecute env t v d).
Proof. unfold encodeExecute. steady_steps. Qed.

#[local] Hint Resolve steady_encodeExecute : steady.

Lemma steady_encodeUserOpCallDataAndGasLimit env d :
  steady (encodeUserOpCallDataAndGasLimit env d).
Proof. unfold encodeUserOpCallDataAndGasLimit. steady_steps. Qed.

Lemma steady_estimateCreationGas env i : steady (estimateCreationGas env i).
Proof. unfold estimateCreationGas. steady_steps. Qed.

Lemma steady_createInitCode env i : steady (createInitCode env i).
Proof. unfold createInitCode. steady_steps. Qed.

Lemma steady_getVerificationGasLimit : steady getVerificationGasLimit.
Proof. unfold getVerificationGasLimit. steady_steps. Qed.

Lemma steady_resolveProperties u : steady (resolveProperties u).
Proof. unfold resolveProperties. steady_steps. Qed.

#[local] Hint Resolve steady_resolveProperties : steady.

Lemma steady_getPreVerificationGas env u : steady (getPreVerificationGas env u).
Proof. unfold getPreVerificationGas. steady_steps. Qed.

Lemma steady_isAccountDeploied env : steady (isAccountDeploied env).
Proof. unfold isAccountDeploied. steady_steps. Qed.

#[local] Hint Resolve steady_isAccountDeploied : steady.

Lemma steady_getNonce env : steady (getNonce env).
Proof. unfold getNonce. steady_steps. Qed.

#[local] Hint Resolve steady_encodeUserOpCallDataAndGasLimit steady_estimateCreationGas
  steady_createInitCode steady_getVerificationGasLimit steady_getPreVerificationGas
  steady_getNonce : steady.

Lemma steady_createUnsignedUserOp env infos n : steady (createUnsignedUserOp env infos n).
Proof. unfold createUnsignedUserOp. steady_steps. Qed.

Lemma steady_signUserOpHash env u : steady (signUserOpHash env u).
Proof. unfold signUserOpHash. steady_steps. Qed.

Lemma steady_getUserOpHash env u : steady (getUserOpHash env u).
Proof. unfold getUserOpHash. steady_steps. Qed.

Lemma evolves_perform step m : evolves m (perform step m).
Proof.
  destruct step as [env op]. destruct op; unfold perform;
    match goal with
    | |- evolves ?m (snd ?run) =>
        let E := fresh in
        destruct run as [r m'] eqn:E; unfold snd; revert E
    end.
  - apply steady_getAccountAddress.
  - apply steady_createUnsignedUserOp.
  - apply steady_encodeUserOpCallDataAndGasLimit.
  - apply steady_estimateCreationGas.
  - apply steady_encodeExecute.
  - apply steady_createInitCode.
  - apply steady_getVerificationGasLimit.
  - apply steady_getPreVerificationGas.
  - apply steady_getNonce.
  - apply steady_isAccountDeploied.
  - apply steady_getAccountContract.
  - apply steady_signUserOpHash.
  - apply steady_getUserOpHash.
Qed.

Lemma evolves_run script : forall m, evolves m (run script m).
Proof.
  induction script as [| step script IH]; intros m; simpl.
  - apply evolves_refl.
  - eapply evolves_trans; [apply evolves_perform | apply IH].
Qed.

(** ** The anatomy of the methods when they succeed *)

Lemma getPreVerificationGas_Ok env u m g m' :
  getPreVerificationGas env u m = (Ok g, m') ->
  exists a,
    (sender u = Value a \/ sender u = Promise (Ok a))
    /\ calcPreVerificationGas env (resolved a u) = inr g
    /\ m' = logged (Call_calcPreVerificationGas (resolved a u)) m.
Proof.
  unfold getPreVerificationGas, resolveProperties. intros H.
  unbind H as p m1 Hp. unbind Hp as a m2 Ha.
  apply await_Ok in Ha. destruct Ha as [-> Hs].
  apply ret_Ok in Hp. destruct Hp as [-> ->].
  apply ask_Ok in H. destruct H as [Hc ->].
  exists a. repeat split; assumption.
Qed.

(** What [getPreVerificationGas] returns depends on the record and on the
    environment only. *)
Lemma getPreVerificationGas_fst env u m m0 :
  fst (getPreVerificationGas env u m) = fst (getPreVerificationGas env u m0).
Proof.
  unfold getPreVerificationGas, resolveProperties, bind, await, ask, ret, throw.
  destruct (sender u) as [a | [a | e]]; simpl;
    try destruct (calcPreVerificationGas env _); reflexivity.
Qed.

Lemma createInitCode_Ok env index m ic m' :
  createInitCode env index m = (Ok ic, m') ->
  exists encoded,
    encodeFunctionData env (ecdsaOwnership (this m)) (moduleSetupData (this m)) 0 = inr encoded
    /\ ic = concat [factory_literal; hex_string encoded]
    /\ m' = logged (Call_encodeFunctionData (ecdsaOwnership (this m)) (moduleSetupData (this m)) 0) m.
Proof.
  unfold createInitCode. intros H. unbind H as t m1 Ht.
  apply self_Ok in Ht. destruct Ht as [-> ->].
  unbind H as encoded m2 He. apply ask_Ok in He. destruct He as [He ->].
  apply ret_Ok in H. destruct H as [-> ->].
  exists encoded. repeat split. exact He.
Qed.

Lemma replace_0x_hex_string h :
  Js.replace_0x (hex_string h) = match h with Hex0x d => d end.
Proof. destruct h as [[| c d]]; reflexivity. Qed.

(** The init-code that [createInitCode] builds starts with the 20 bytes of
    the factory literal; in particular it is not the empty byte string. *)
Lemma concat_factory_literal h :
  concat [factory_literal; hex_string h]
  = "0x000000a56Aaca3e9a4C479ea6b6CD0DbcB6634F5" ++ match h with Hex0x d => d end.
Proof.
  unfold concat. simpl fold_left. rewrite replace_0x_hex_string. reflexivity.
Qed.

Lemma createInitCode_nonempty env index m ic m' :
  createInitCode env index m = (Ok ic, m') ->
  ic <> "0x" /\ ic <> "" /\ (2 < String.length ic)%nat.
Proof.
  intros H. apply createInitCode_Ok in H. destruct H as (h & _ & -> & _).
  rewrite concat_factory_literal. simpl. repeat split.
  - discriminate.
  - discriminate.
  - lia.
Qed.

Lemma estimateCreationGas_Ok env ic m g m' :
  estimateCreationGas env (Some ic) m = (Ok g, m') ->
  (ic = "" \/ ic = "0x") /\ g = 0 /\ m' = m
  \/ ic <> "" /\ ic <> "0x"
     /\ estimateGas env (creation_request ic) = inr g
     /\ m' = logged (Call_estimateGas (creation_request ic)) m.
Proof.
  unfold estimateCreationGas, Js.truthy. rewrite negb_involutive.
  destruct (String.eqb_spec ic "") as [-> | Hne]; simpl.
  - intros H. apply ret_Ok in H. destruct H as [-> ->]. left. auto.
  - destruct (String.eqb_spec ic "0x") as [-> | Hne2].
    + intros H. apply ret_Ok in H. destruct H as [-> ->]. left. auto.
    + unfold provider_estimateGas. intros H. unbind H as t m1 Ht.
      apply await_Ok in Ht. destruct Ht as [-> Ht]. cbn [tx_to] in Ht.
      assert (t = Js.slice 0 42 ic) as -> by (destruct Ht as [Ht | Ht]; congruence).
      cbn [tx_from tx_data] in H. apply ask_Ok in H. destruct H as [Hg ->].
      right. repeat split; assumption.
Qed.

Lemma nth_error_singleton {A} (l : list A) x :
  (1 <? List.length l)%nat = false -> nth_error l 0 = Some x -> l = [x].
Proof.
  destruct l as [| y [| z l]]; simpl; intros Hl Hx.
  - discriminate Hx.
  - inversion Hx. reflexivity.
  - discriminate Hl.
Qed.

Lemma encodeUserOpCallDataAndGasLimit_defined env o m r m' :
  encodeUserOpCallDataAndGasLimit env o m = (Ok r, m') -> exists d, o = Some d.
Proof.
  unfold encodeUserOpCallDataAndGasLimit. intros H. unbind H as v m1 Hv.
  apply read_Ok in Hv. destruct Hv as (d & -> & _). exists d. reflexivity.
Qed.

Lemma createUnsignedUserOp_Ok env infos n0 m op m' :
  createUnsignedUserOp env infos n0 m = (Ok op, m') ->
  exists d, infos = [d] /\ anatomy env m d op m'.
Proof.
  unfold createUnsignedUserOp, BigNumber.eq, BigNumber.add, BigNumber.from.
  destruct (1 <? List.length infos)%nat eqn:El; [discriminate |].
  intros H. unbind H as cg m1 Hcg. destruct cg as [cd cgl].
  destruct (encodeUserOpCallDataAndGasLimit_defined _ _ _ _ _ Hcg) as [d Hd].
  exists d. split; [apply nth_error_singleton; assumption |].
  rewrite Hd in *. clear Hd El.
  unbind H as n m1' Hn. apply read_Ok in Hn. destruct Hn as (d' & Hd' & -> & ->).
  inversion Hd'; subst d'; clear Hd'.
  unbind H as nonce_ m2 Hnonce.
  unbind H as ic m3 Hic.
  unbind H as initGas m4 Hgas.
  unbind H as base m4' Hbase. apply ret_Ok in Hbase. destruct Hbase as [-> ->].
  unbind H as chainId m4a Hnet. apply ask_Ok in Hnet. destruct Hnet as [Hnet ->].
  unbind H as feeData m4b Hfee. apply ask_Ok in Hfee. destruct Hfee as [Hfee ->].
  unbind H as s m5 Hacc. apply unawaited_Ok in Hacc. destruct Hacc as (r & Hacc & ->).
  unbind H as g m6 Hg1.
  unbind H as pv m7 Hg2. apply ret_Ok in H. destruct H as [-> ->].
  apply deferred_Ok in Hg2. destruct Hg2 as [-> ->].
  rewrite (getPreVerificationGas_fst env _ m6 m5), Hg1. cbn [fst].
  apply getPreVerificationGas_Ok in Hg1. destruct Hg1 as (a & Hs & Hcalc & ->).
  simpl in Hs.
  destruct Hs as [Hs | Hs]; [discriminate Hs |]. inversion Hs; subst r; clear Hs.
  unfold anatomy. simpl.
  exists m1, m2, m3, m4, m5, initGas, chainId, feeData, a, g.
  repeat split; try assumption; reflexivity.
Qed.

(** ** Which exceptions the methods throw *)

Lemma Error_free_ret {A} (a : A) : Error_free (ret a).
Proof. intros m e m' H. discriminate H. Qed.

Lemma Error_free_self : Error_free self.
Proof. intros m e m' H. discriminate H. Qed.

Lemma Error_free_assign f : Error_free (assign f).
Proof. intros m e m' H. discriminate H. Qed.

Lemma Error_free_TypeError {A} name : Error_free (@throw A (TypeError name)).
Proof. intros m e m' H. inversion H. discriminate. Qed.

Lemma Error_free_ask {A} c (r : Reply A) : Error_free (ask c r).
Proof.
  intros m e m'. unfold ask. destruct r; intros H; inversion H. discriminate.
Qed.

Lemma Error_free_read {T A} (o : option T) (p : T -> A) name : Error_free (read o p name).
Proof. destruct o; simpl; [apply Error_free_ret | apply Error_free_TypeError]. Qed.

Lemma Error_free_unawaited {A} (c : M A) : Error_free (unawaited c).
Proof.
  intros m e m'. unfold unawaited. destruct (c m). discriminate.
Qed.

Lemma Error_free_deferred {A} (c : M A) : Error_free (deferred c).
Proof. intros m e m' H. discriminate H. Qed.

Lemma Error_free_await {A} (v : PromiseOrValue A) : clean v -> Error_free (await v).
Proof.
  intros Hv m e m'. destruct v as [a | [a | e0]]; simpl; unfold ret, throw;
    intros H; inversion H; subst.
  intros msg ->. apply (Hv msg). reflexivity.
Qed.

Lemma clean_Value {A} (a : A) : clean (Value a).
Proof. intros msg. discriminate. Qed.

(** Sequencing, with a fact [Q] about what the first step returns. *)
Lemma Error_free_bind_with {A B} (Q : A -> Prop) (c : M A) (k : A -> M B) :
  (forall m a m', c m = (Ok a, m') -> Q a) ->
  Error_free c -> (forall a, Q a -> Error_free (k a)) -> Error_free (bind c k).
Proof.
  intros HQ Hc Hk m e m' H. apply bind_Err in H. destruct H as [H | (a & m1 & Ha & H)].
  - eapply Hc, H.
  - eapply Hk; [eapply HQ, Ha | exact H].
Qed.

Lemma Error_free_bind {A B} (c : M A) (k : A -> M B) :
  Error_free c -> (forall a, Error_free (k a)) -> Error_free (bind c k).
Proof.
  intros Hc Hk. apply (Error_free_bind_with (fun _ => True)); auto.
Qed.

Lemma unawaited_clean {A} (c : M A) :
  Error_free c -> forall m p m', unawaited c m = (Ok p, m') -> clean p.
Proof.
  intros Hc m p m' H. apply unawaited_Ok in H. destruct H as (r & Hr & ->).
  intros msg Heq. inversion Heq; subst. eapply Hc; [exact Hr | reflexivity].
Qed.

Create HintDb Error_free.

#[local] Hint Resolve Error_free_ret Error_free_self Error_free_assign Error_free_TypeError
  Error_free_ask Error_free_read Error_free_unawaited Error_free_deferred
  Error_free_await clean_Value : Error_free.

Ltac Error_free_steps :=
  repeat first
    [ solve [auto with Error_free]
    | match goal with
      | |- Error_free (bind (unawaited ?c) _) =>
          apply (Error_free_bind_with clean);
          [ apply unawaited_clean | | intros ? ? ]
      | |- Error_free (bind _ _) => apply Error_free_bind; [| intro]
      | |- Error_free (match ?x with _ => _ end) => destruct x
      | |- Error_free (if ?b then _ else _) => destruct b
      | |- Error_free (let '(_, _) := ?p in _) => destruct p
      end ].

Lemma Error_free_getAccountAddress env : Error_free (getAccountAddress env).
Proof. unfold getAccountAddress, resolveAccountAddress. Error_free_steps. Qed.

#[local] Hint Resolve Error_free_getAccountAddress : Error_free.

Lemma Error_free_getAccountContract env : Error_free (getAccountContract env).
Proof. unfold getAccountContract. Error_free_steps. Qed.

#[local] Hint Resolve Error_free_getAccountContract : Error_free.

Lemma Error_free_provider_estimateGas env request :
  clean (tx_to request) -> Error_free (provider_estimateGas env request).
Proof. intros Hc. unfold provider_estimateGas. Error_free_steps. Qed.

#[local] Hint Resolve Error_free_provider_estimateGas : Error_free.

Lemma Error_free_encodeUserOpCallDataAndGasLimit env d :
  Error_free (encodeUserOpCallDataAndGasLimit env d).
Proof. unfold encodeUserOpCallDataAndGasLimit, encodeExecute. Error_free_steps. Qed.

Lemma Error_free_estimateCreationGas env i : Error_free (estimateCreationGas env i).
Proof.
  unfold estimateCreationGas. Error_free_steps.
  apply Error_free_provider_estimateGas, clean_Value.
Qed.

Lemma Error_free_createInitCode env i : Error_free (createInitCode env i).
Proof. unfold createInitCode. Error_free_steps. Qed.

Lemma Error_free_getNonce env : Error_free (getNonce env).
Proof. unfold getNonce, isAccountDeploied. Error_free_steps. Qed.

Lemma Error_free_getPreVerificationGas env u :
  clean (sender u) -> Error_free (getPreVerificationGas env u).
Proof. intros Hc. unfold getPreVerificationGas, resolveProperties. Error_free_steps. Qed.

#[local] Hint Resolve Error_free_encodeUserOpCallDataAndGasLimit Error_free_estimateCreationGas
  Error_free_createInitCode Error_free_getNonce Error_free_getPreVerificationGas : Error_free.

(** Past the guard on the length of the list, no [Error] is thrown. *)
Lemma Error_free_past_guard env infos n :
  (1 <? List.length infos)%nat = false -> Error_free (createUnsignedUserOp env infos n).
Proof.
  intros Hl. unfold createUnsignedUserOp, getVerificationGasLimit. rewrite Hl.
  Error_free_steps.
Qed.

(** ** The guard on batches *)

(** Lines 42-44: when the test of the guard holds, the method throws and
    does nothing else. *)
Lemma guard_throws env infos n m :
  (1 <? List.length infos)%nat = true ->
  createUnsignedUserOp env infos n m = (Err (Error batch_message), m).
Proof.
  intros Hl. unfold createUnsignedUserOp. rewrite Hl. reflexivity.
Qed.

(** C8.  A list of more than one transaction-details element makes
    [createUnsignedUserOp] throw the batch error at once: the result is
    the exception, so no operation is produced, and the machine is the one
    the call started from, so nothing of the pipeline has run (no field
    assigned, no collaborator used). *)
Theorem batch_rejected env infos n m :
  (1 < List.length infos)%nat ->
  createUnsignedUserOp env infos n m = (Err (Error batch_message), m).
Proof.
  intros Hl. apply guard_throws, Nat.ltb_lt, Hl.
Qed.

Lemma batch_rejected_witness :
  (1 < List.length Sample.batch)%nat
  /\ createUnsignedUserOp (Sample.env false) Sample.batch None (fresh Sample.account)
     = (Err (Error batch_message), fresh Sample.account).
Proof.
  split; [simpl; lia | apply batch_rejected; simpl; lia].
Defined.

(** C10.  The batch error is thrown exactly for the lists of length
    greater than one.  The empty list passes the guard; [infos[0]] is then
    [undefined], and the build stops at the first property read on it
    ([detailsForUserOp.value]) with a [TypeError], before any collaborator
    is used. *)
Theorem batch_error_iff env infos n m :
  ((exists m', createUnsignedUserOp env infos n m = (Err (Error batch_message), m'))
   <-> (1 < List.length infos)%nat)
  /\ nth_error (@nil TransactionDetailsForUserOp) 0 = None
  /\ createUnsignedUserOp env [] n m = (Err (TypeError "value"), m).
Proof.
  split; [split |].
  - intros [m' H]. destruct (1 <? List.length infos)%nat eqn:El.
    + apply Nat.ltb_lt. exact El.
    + exfalso. eapply (Error_free_past_guard env infos n El); [exact H | reflexivity].
  - intros Hl. exists m. apply guard_throws, Nat.ltb_lt, Hl.
  - split; reflexivity.
Qed.

Lemma batch_error_iff_witness :
  ((exists m', createUnsignedUserOp (Sample.env true) [Sample.details None None] None
                 (fresh Sample.account) = (Err (Error batch_message), m'))
   <-> (1 < List.length [Sample.details None None])%nat)
  /\ nth_error (@nil TransactionDetailsForUserOp) 0 = None
  /\ createUnsignedUserOp (Sample.env true) [] None (fresh Sample.account)
     = (Err (TypeError "value"), fresh Sample.account).
Proof.
  exact (batch_error_iff (Sample.env true) [Sample.details None None] None
           (fresh Sample.account)).
Defined.

(** ** Init-code and the nonce *)



(** ** Call data, call gas and the nonce *)

Lemma encodeExecute_Ok env t v d m cd m' :
  encodeExecute env t v d m = (Ok cd, m') ->
  exists c m1,
    getAccountContract env m = (Ok c, m1)
    /\ execute_ncC env c t v d = inr cd
    /\ m' = logged (Call_execute_ncC c t v d) m1.
Proof.
  unfold encodeExecute. intros H. unbind H as c m1 Hc.
  apply ask_Ok in H. destruct H as [He ->].
  exists c, m1. repeat split; assumption.
Qed.

Lemma encodeUserOpCallDataAndGasLimit_Ok env d m cd cgl m' :
  encodeUserOpCallDataAndGasLimit env (Some d) m = (Ok (cd, cgl), m') ->
  exists c m1,
    getAccountContract env m = (Ok c, m1)
    /\ execute_ncC env c (to d) (toHexString env (nullish (value d) 0)) (data d) = inr cd
    /\ smartAccountContract (this m') = Some c
    /\ (nullish (gasLimit d) 0 <> 0 /\ cgl = toHexString env (nullish (gasLimit d) 0)
        \/ nullish (gasLimit d) 0 = 0
           /\ exists a g,
                accountAddress (this m') = Some a /\ Js.truthy a = true
                /\ estimateGas env (call_request (this m) a cd) = inr g
                /\ cgl = toHexString env g).
Proof.
  unfold encodeUserOpCallDataAndGasLimit, BigNumber.eq, BigNumber.from.
  simpl read. intros H.
  unbind H as v m0 Hv. apply ret_Ok in Hv. destruct Hv as [-> ->].
  unbind H as t m0 Ht. apply ret_Ok in Ht. destruct Ht as [-> ->].
  unbind H as dt m0 Hdt. apply ret_Ok in Hdt. destruct Hdt as [-> ->].
  unbind H as cd' m1 Hcd.
  unbind H as gl m1' Hgl. apply ret_Ok in Hgl. destruct Hgl as [-> ->].
  unbind H as g m2 Hg. apply ret_Ok in H. destruct H as [Heq ->].
  inversion Heq; subst cd' cgl; clear Heq.
  apply encodeExecute_Ok in Hcd. destruct Hcd as (c & m0 & Hc & He & ->).
  destruct (getAccountContract_spec _ _ _ _ Hc) as [Hev Hcs].
  destruct (Hcs c eq_refl) as [Hsome _].
  exists c, m0.
  destruct (Z.eqb_spec (nullish (gasLimit d) 0) 0) as [Hz | Hnz].
  - unbind Hg as t m3 Ht. apply self_Ok in Ht. destruct Ht as [-> ->].
    unbind Hg as p m3 Hp. apply unawaited_Ok in Hp. destruct Hp as (r & Hr & ->).
    unbind Hg as estimate m5 Hest. apply ret_Ok in Hg. destruct Hg as [-> ->].
    unfold provider_estimateGas in Hest. cbn [tx_to tx_from tx_data] in Hest.
    unbind Hest as a m4 Ha. apply await_Ok in Ha. destruct Ha as [-> Ha].
    destruct Ha as [Ha | Ha]; [discriminate Ha |]. inversion Ha; subst r; clear Ha.
    apply ask_Ok in Hest. destruct Hest as [Hest ->].
    destruct (getAccountAddress_spec _ _ _ _ Hr) as (Hev2 & Hk & Haddr).
    destruct (Haddr a eq_refl) as [Hcache Ht].
    simpl. repeat split; try assumption.
    + rewrite Hk. exact Hsome.
    + right. split; [exact Hz |]. exists a, estimate. repeat split; try assumption.
      unfold call_request.
      replace (entryPointAddress (this m)) with (entryPointAddress (this m0)); [exact Hest |].
      pose proof (ev_config _ _ Hev) as Hcfg. unfold config in Hcfg. congruence.
  - apply ret_Ok in Hg. destruct Hg as [-> ->].
    simpl. repeat split; try assumption.
    left. split; [exact Hnz | reflexivity].
Qed.

Lemma cached_address_stays env m a m0 r m0' :
  accountAddress (this m) = Some a -> Js.truthy a = true ->
  evolves m m0 ->
  getAccountAddress env m0 = (r, m0') -> r = Ok a /\ m0' = m0.
Proof.
  intros Ha Ht Hev H.
  rewrite (getAccountAddress_cached env m0 a (ev_address _ _ Hev a Ha Ht) Ht) in H.
  inversion H. split; reflexivity.
Qed.

Lemma evolves_logged m m0 c : evolves m m0 -> evolves m (logged c m0).
Proof. intros H. eapply evolves_trans; [exact H | apply evolves_log]. Qed.

Lemma getNonce_Ok env m k m' :
  getNonce env m = (Ok k, m') ->
  exists a code,
    getCode env a = inr code
    /\ accountAddress (this m') = Some a /\ Js.truthy a = true
    /\ (code = Hex0x "" /\ k = 0
        \/ code <> Hex0x ""
           /\ exists c, smartAccountContract (this m') = Some c
                        /\ (consistent (this m) -> target c = a)
                        /\ account_nonce env c = inr k).
Proof.
  unfold getNonce, isAccountDeploied. intros H.
  unbind H as b m1 Hb. unbind Hb as a m2 Ha. unbind Hb as code m3 Hcode.
  apply ask_Ok in Hcode. destruct Hcode as [Hcode ->].
  apply ret_Ok in Hb. destruct Hb as [-> ->].
  destruct (getAccountAddress_spec _ _ _ _ Ha) as (Hev & Hk & Haddr).
  destruct (Haddr a eq_refl) as [Hcache Ht].
  exists a, code. split; [exact Hcode |].
  destruct (2 <? String.length (hex_string code))%nat eqn:El; simpl in H.
  - unbind H as c m4 Hc. apply ask_Ok in H. destruct H as [Hn ->].
    destruct (getAccountContract_spec _ _ _ _ Hc) as [Hev2 Hcs].
    destruct (Hcs c eq_refl) as [Hsome Hcons].
    assert (Hstay : accountAddress (this m4) = Some a)
      by (apply (ev_address _ _ Hev2); assumption).
    simpl. repeat split; try assumption.
    right. split; [apply hex_string_length, El |].
    exists c. repeat split; try assumption.
    intros Hi. destruct Hcons as [Hc' _].
    { simpl. apply (ev_consistent _ _ Hev), Hi. }
    rewrite Hstay in Hc'. inversion Hc'. reflexivity.
  - apply ret_Ok in H. destruct H as [-> ->]. simpl. repeat split; try assumption.
    left. split; [| reflexivity].
    destruct code as [[| ch d]]; [reflexivity | discriminate El].
Qed.

(** The nonce of a returned operation is the one the details carry, when
    they carry one (zero included).  Otherwise the code at the resolved
    address decides: with no code, it is zero; with code there, it is
    what the call [nonce()] answered, so a build returns only if that
    call is answered.  The instance is taken consistent, as every
    instance obtained from the constructor through the methods is
    ([reachable_consistent]). *)
Lemma nonce_resolution env infos n m op m' :
  consistent (this m) ->
  createUnsignedUserOp env infos n m = (Ok op, m') ->
  let u := partialUserOp op in
  exists d, infos = [d]
    /\ (forall k, td_nonce d = Some k -> nonce u = k)
    /\ (td_nonce d = None ->
        exists a code,
          sender u = Promise (Ok a)
          /\ getCode env a = inr code
          /\ (code <> Hex0x "" -> account_nonce env {| target := a |} = inr (nonce u))
          /\ (code = Hex0x "" -> nonce u = 0)).
Proof.
  intros Hi H u. apply createUnsignedUserOp_Ok in H.
  destruct H as (d & Hd & m1 & m2 & m3 & m4 & m5 & initGas & chainId & feeData & a & g
                 & Henc & Hnonce & Hic & Hgas & _ & _ & _ & _ & _ & _ & Hacc & Hs & _).
  fold u in Hnonce, Hic, Hgas, Hs.
  exists d. split; [exact Hd |]. split.
  - intros k Hk. rewrite Hk in Hnonce. apply ret_Ok in Hnonce. apply Hnonce.
  - intros Hnone. rewrite Hnone in Hnonce.
    pose proof (steady_encodeUserOpCallDataAndGasLimit _ _ _ _ _ Henc) as Hev1.
    destruct (getNonce_Ok _ _ _ _ Hnonce) as (a0 & code & Hcode & Hcache & Ht & Hcases).
    assert (Hev : evolves m2 (logged (Call_getFeeDataFromParticle chainId)
                                (logged Call_getNetwork m4))).
    { do 2 apply evolves_logged. eapply evolves_trans.
      - destruct (nonce u =? 0); [eapply steady_createInitCode | eapply steady_ret];
          exact Hic.
      - eapply steady_estimateCreationGas, Hgas. }
    destruct (cached_address_stays _ _ _ _ _ _ Hcache Ht Hev Hacc) as [Ha _].
    inversion Ha; subst a0; clear Ha.
    exists a, code. repeat split; try assumption.
    + intros Hne. destruct Hcases as [[Hempty _] | (_ & c & _ & Htarget & Hn)].
      * contradiction.
      * rewrite <- (Htarget (ev_consistent _ _ Hev1 Hi)). destruct c. exact Hn.
    + intros Hempty. destruct Hcases as [[_ Hk] | (Hne & _)].
      * exact Hk.
      * contradiction.
Qed.

(** When the call [nonce()] is rejected, a build without a supplied
    nonce returns an operation only for an address without code. *)
Lemma rejected_nonce_read env infos n m op m' :
  consistent (this m) ->
  (forall c, exists reason, account_nonce env c = inl reason) ->
  createUnsignedUserOp env infos n m = (Ok op, m') ->
  let u := partialUserOp op in
  exists d, infos = [d]
    /\ (td_nonce d = None ->
        exists a, sender u = Promise (Ok a)
                  /\ getCode env a = inr (Hex0x "") /\ nonce u = 0).
Proof.
  intros Hi Hrej H u.
  destruct (nonce_resolution _ _ _ _ _ _ Hi H) as (d & Hd & _ & Hnone).
  exists d. split; [exact Hd |]. intros Hn.
  destruct (Hnone Hn) as (a & code & Hs & Hcode & Hfull & Hempty).
  exists a. split; [exact Hs |].
  destruct code as [[| ch digits]].
  - split; [exact Hcode | apply Hempty; reflexivity].
  - destruct (Hrej {| target := a |}) as [reason Hr].
    assert (Hk : account_nonce env {| target := a |} = inr (nonce (partialUserOp op)))
      by (apply Hfull; discriminate).
    rewrite Hr in Hk. discriminate Hk.
Qed.

(** C6.  For a deployed account and details without a nonce the build
    does not return the on-chain nonce: it returns nothing.  The ABI the
    account handle is made from has a single fragment named [nonce], with
    one input (lines 542-548), and line 173 calls [nonce()] without
    argument; no fragment matches, the call is rejected, and the build
    ends with that rejection, right after [getCode] reported the code.
    With a nonce in the details, or with no code at the address, the
    call is not made ([nonce_resolution]). *)
Theorem deployed_nonce_read_rejects :
  let env := Sample.env true in
  let a := hex_string Sample.counterfactual in
  let build :=
    createUnsignedUserOp env [Sample.details None None] None (fresh Sample.account) in
  Sample.matching Sample.nonce_fragments 0 = []
  /\ getCode env a = inr (Hex0x "6080604052")
  /\ fst build = Err (Rejected "no matching fragment")
  /\ skipn 3 (calls (snd build)) = [Call_getCode a; Call_nonce {| target := a |}].
Proof.
  cbv zeta. split; [reflexivity |]. split; [reflexivity |].
  split; vm_compute; reflexivity.
Qed.

(** Every instance reached from the constructor through the methods is
    consistent. *)
Lemma reachable_consistent owner factoryAddress entryPointAddress ecdsaModule script :
  consistent
    (this (run script (fresh (constructor owner factoryAddress entryPointAddress ecdsaModule)))).
Proof.
  apply (ev_consistent _ _ (evolves_run script _)).
  intros c Hc. discriminate Hc.
Qed.

(** C5.  The call gas limit of the operation is the hex rendering
    ([toHexString]) of the gas limit the details carry when that is not
    zero; when it is zero or absent, of what the estimator answers for the
    request whose data is the call data of the operation (the encoded
    [execute_ncC] call), whose origin is the EntryPoint address and whose
    target is the account address. *)
Theorem callGasLimit_spec env infos n m op m' :
  consistent (this m) ->
  createUnsignedUserOp env infos n m = (Ok op, m') ->
  let u := partialUserOp op in
  exists d a, infos = [d]
    /\ sender u = Promise (Ok a)
    /\ execute_ncC env {| target := a |} (to d)
         (toHexString env (nullish (value d) 0)) (data d) = inr (callData u)
    /\ (forall supplied, gasLimit d = Some supplied -> supplied <> 0 ->
          callGasLimit u = toHexString env supplied)
    /\ (gasLimit d = None \/ gasLimit d = Some 0 ->
          exists estimate,
            estimateGas env (call_request (this m) a (callData u)) = inr estimate
            /\ callGasLimit u = toHexString env estimate).
Proof.
  intros Hi H u. apply createUnsignedUserOp_Ok in H.
  destruct H as (d & Hd & m1 & m2 & m3 & m4 & m5 & initGas & chainId & feeData & a & g
                 & Henc & Hnonce & Hic & Hgas & _ & _ & _ & _ & _ & _ & Hacc & Hs & _).
  fold u in Henc, Hnonce, Hic, Hgas, Hs.
  pose proof (steady_encodeUserOpCallDataAndGasLimit _ _ _ _ _ Henc) as Hev1.
  assert (Hev : evolves m1 (logged (Call_getFeeDataFromParticle chainId)
                              (logged Call_getNetwork m4))).
  { do 2 apply evolves_logged. eapply evolves_trans; [| eapply evolves_trans].
    - destruct (td_nonce d); [eapply steady_ret | eapply steady_getNonce]; exact Hnonce.
    - destruct (nonce u =? 0); [eapply steady_createInitCode | eapply steady_ret];
        exact Hic.
    - eapply steady_estimateCreationGas, Hgas. }
  destruct (encodeUserOpCallDataAndGasLimit_Ok _ _ _ _ _ _ Henc)
    as (c & m0 & Hc & Hexec & Hsome & Hcases).
  (* the handle used for the encoding points at the address of the sender *)
  destruct (ev_consistent _ _ Hev1 Hi c Hsome) as [Hcache Ht].
  destruct (cached_address_stays _ _ _ _ _ _ Hcache Ht Hev Hacc) as [Ha _].
  inversion Ha as [Htarget]; clear Ha. subst a.
  exists d, (target c). repeat split; try assumption.
  - destruct c. exact Hexec.
  - intros supplied Hg Hnz. destruct Hcases as [[_ Hcgl] | [Hz _]].
    + rewrite Hcgl, Hg. reflexivity.
    + rewrite Hg in Hz. simpl in Hz. contradiction.
  - intros Habsent. destruct Hcases as [[Hnz _] | (_ & a0 & est & Hcache0 & _ & Hest & Hcgl)].
    + exfalso. apply Hnz. destruct Habsent as [-> | ->]; reflexivity.
    + exists est. split; [| exact Hcgl].
      rewrite Hcache in Hcache0. inversion Hcache0; subst a0. exact Hest.
Qed.

Lemma callGasLimit_spec_witness :
  consistent (this (fresh Sample.account))
  /\ exists op m',
       createUnsignedUserOp (Sample.env false) [Sample.details (Some 77) None] None
         (fresh Sample.account) = (Ok op, m')
       /\ callGasLimit (partialUserOp op) = "0x4d".
Proof.
  assert (Hc : consistent (this (fresh Sample.account))) by (intros c Hc; discriminate Hc).
  split; [exact Hc |].
  destruct (createUnsignedUserOp (Sample.env false) [Sample.details (Some 77) None] None
              (fresh Sample.account)) as [[op | e] m'] eqn:E; [| vm_compute in E; discriminate E].
  exists op, m'. split; [reflexivity |].
  destruct (callGasLimit_spec _ _ _ _ _ _ Hc E) as (d & a & Hd & _ & _ & Hsupplied & _).
  inversion Hd; subst d; clear Hd.
  rewrite (Hsupplied 77); [reflexivity | reflexivity | discriminate].
Defined.

(** ** Verification gas *)

(** C4.  [estimateCreationGas] answers zero for an init-code that is
    absent or empty ([0x], or the empty string), and otherwise what the estimator answers for a call
    to the first 20 bytes of the init-code with the remaining bytes as
    data.  The verification gas limit of an operation is 1,500,000 plus
    the creation gas of its init-code; it is exactly 1,500,000 when the
    init-code is empty. *)
Theorem verificationGasLimit_spec env :
  (forall m, estimateCreationGas env None m = (Ok 0, m)
             /\ estimateCreationGas env (Some "") m = (Ok 0, m)
             /\ estimateCreationGas env (Some "0x") m = (Ok 0, m))
  /\ (forall ic m, ic <> "" -> ic <> "0x" ->
        estimateCreationGas env (Some ic) m
        = ask (Call_estimateGas (creation_request ic)) (estimateGas env (creation_request ic)) m)
  /\ (forall infos n m op m',
        createUnsignedUserOp env infos n m = (Ok op, m') ->
        let u := partialUserOp op in
        exists creationGas,
          verificationGasLimit u = 1500000 + creationGas
          /\ (initCode u = "0x" -> creationGas = 0 /\ verificationGasLimit u = 1500000)
          /\ (initCode u <> "0x" ->
              estimateGas env (creation_request (initCode u)) = inr creationGas)).
Proof.
  split; [| split].
  - intros m. repeat split; reflexivity.
  - intros ic m Hne Hne2. unfold estimateCreationGas, Js.truthy.
    rewrite negb_involutive.
    destruct (String.eqb_spec ic "") as [-> | _]; [contradiction |].
    destruct (String.eqb_spec ic "0x") as [-> | _]; [contradiction |].
    reflexivity.
  - intros infos n m op m' H u. apply createUnsignedUserOp_Ok in H.
    destruct H as (d & Hd & m1 & m2 & m3 & m4 & m5 & initGas & chainId & feeData & a & g
                   & _ & _ & Hic & Hgas & Hv & _).
    fold u in Hic, Hgas, Hv.
    exists initGas. split; [exact Hv |].
    apply estimateCreationGas_Ok in Hgas.
    destruct Hgas as [(Hempty & -> & _) | (Hne & Hne2 & Hest & _)].
    + split.
      * intros _. split; [reflexivity | rewrite Hv; reflexivity].
      * intros Hne. destruct Hempty as [Hempty | Hempty]; [| contradiction].
        exfalso. destruct (nonce u =? 0).
        -- apply (createInitCode_nonempty _ _ _ _ _ Hic), Hempty.
        -- apply ret_Ok in Hic. destruct Hic as [Hic _]. contradiction.
    + split.
      * intros Hempty. contradiction.
      * intros _. exact Hest.
Qed.

Lemma verificationGasLimit_spec_witness :
  exists op m',
    createUnsignedUserOp (Sample.env false) [Sample.details None None] None
      (fresh Sample.account) = (Ok op, m')
    /\ initCode (partialUserOp op) <> "0x"
    /\ verificationGasLimit (partialUserOp op) = 1800000.
Proof.
  destruct (createUnsignedUserOp (Sample.env false) [Sample.details None None] None
              (fresh Sample.account)) as [[op | e] m'] eqn:E; [| vm_compute in E; discriminate E].
  exists op, m'. split; [reflexivity |].
  destruct (verificationGasLimit_spec (Sample.env false)) as (_ & _ & Hbuild).
  destruct (Hbuild _ _ _ _ _ E) as (creationGas & Hv & _ & Hest).
  assert (Hne : initCode (partialUserOp op) <> "0x").
  { pose proof E as E'. vm_compute in E'. inversion E'. discriminate. }
  split; [exact Hne |].
  specialize (Hest Hne). simpl in Hest. inversion Hest; subst creationGas. exact Hv.
Defined.

(** ** The cached address *)

(** C7.  Once [getAccountAddress] has succeeded with [a] on an instance,
    every later call returns [a] again, whatever methods ran on that
    instance in between and whatever the collaborators answer by then;
    the call leaves the machine as it finds it, so it assigns nothing and
    uses no collaborator: the address is not computed again. *)
Theorem getAccountAddress_idempotent env m a m1 :
  getAccountAddress env m = (Ok a, m1) ->
  forall script env',
    getAccountAddress env' (run script m1) = (Ok a, run script m1).
Proof.
  intros H script env'.
  destruct (getAccountAddress_spec _ _ _ _ H) as (_ & _ & Haddr).
  destruct (Haddr a eq_refl) as [Hcache Ht].
  apply getAccountAddress_cached; [| exact Ht].
  apply (ev_address _ _ (evolves_run script m1)); assumption.
Qed.

Lemma getAccountAddress_idempotent_witness :
  let script :=
    [ (Sample.env false, Op_createUnsignedUserOp [Sample.details None None] None);
      (Sample.env true, Op_getNonce);
      (Sample.env true, Op_createInitCode (Some 5)) ] in
  exists m1,
    getAccountAddress (Sample.env false) (fresh Sample.account)
    = (Ok (hex_string Sample.counterfactual), m1)
    /\ getAccountAddress (Sample.env true) (run script m1)
       = (Ok (hex_string Sample.counterfactual), run script m1).
Proof.
  intros script.
  destruct (getAccountAddress (Sample.env false) (fresh Sample.account)) as [r m1] eqn:E.
  assert (Hr : r = Ok (hex_string Sample.counterfactual))
    by (pose proof E as E'; vm_compute in E'; inversion E'; reflexivity).
  subst r. exists m1. split; [reflexivity |].
  apply (getAccountAddress_idempotent _ _ _ _ E).
Defined.

(** ** Fields that are promises *)

(** C9, counterexample.  For the undeployed sample account the build
    succeeds and its sender field is a promise, not a string. *)
Lemma sender_is_the_address_fails :
  ~ sender_is_the_address (Sample.env false) [Sample.details None None] None
      (fresh Sample.account).
Proof.
  intros Hclaim.
  destruct (createUnsignedUserOp (Sample.env false) [Sample.details None None] None
              (fresh Sample.account)) as [[op | e] m'] eqn:E; [| vm_compute in E; discriminate E].
  destruct (Hclaim op m' E) as (a & Hs & _).
  vm_compute in E. inversion E; subst op. discriminate Hs.
Qed.

(** C9, amended.  The sender field of the operation of a successful build
    is the promise that the call [this.getAccountAddress()], which is not
    awaited, has returned; that promise settles to the resolved account
    address: the one cached on the instance, which [getAccountAddress]
    yields from then on. *)
Theorem sender_promises_the_address env infos n m op m' :
  createUnsignedUserOp env infos n m = (Ok op, m') ->
  exists a,
    sender (partialUserOp op) = Promise (Ok a)
    /\ accountAddress (this m') = Some a
    /\ forall env', getAccountAddress env' m' = (Ok a, m').
Proof.
  intros H. apply createUnsignedUserOp_Ok in H.
  destruct H as (d & Hd & m1 & m2 & m3 & m4 & m5 & initGas & chainId & feeData & a & g
                 & _ & _ & _ & _ & _ & _ & _ & _ & _ & _ & Hacc & Hs & _ & _ & _ & ->).
  destruct (getAccountAddress_spec _ _ _ _ Hacc) as (_ & _ & Haddr).
  destruct (Haddr a eq_refl) as [Hcache Ht].
  exists a. split; [exact Hs |]. split; [exact Hcache |].
  intros env'. apply getAccountAddress_cached; assumption.
Qed.

Lemma sender_promises_the_address_witness :
  exists op m',
    createUnsignedUserOp (Sample.env false) [Sample.details None None] None
      (fresh Sample.account) = (Ok op, m')
    /\ sender (partialUserOp op) = Promise (Ok (hex_string Sample.counterfactual)).
Proof.
  destruct (createUnsignedUserOp (Sample.env false) [Sample.details None None] None
              (fresh Sample.account)) as [[op | e] m'] eqn:E; [| vm_compute in E; discriminate E].
  exists op, m'. split; [reflexivity |].
  destruct (sender_promises_the_address _ _ _ _ _ _ E) as (a & Hs & _ & Hget).
  rewrite Hs. pose proof E as E'. vm_compute in E'. inversion E'; subst op m'.
  inversion Hs. reflexivity.
Defined.

(** C2, counterexample.  For the undeployed sample account the build
    succeeds and its preVerificationGas field is a promise, not an
    integer. *)
Lemma preVerificationGas_is_the_integer_fails :
  ~ preVerificationGas_is_the_integer (Sample.env false) [Sample.details None None] None
      (fresh Sample.account).
Proof.
  intros Hclaim.
  destruct (createUnsignedUserOp (Sample.env false) [Sample.details None None] None
              (fresh Sample.account)) as [[op | e] m'] eqn:E; [| vm_compute in E; discriminate E].
  destruct (Hclaim op m' E) as (a & g & Hp & _).
  vm_compute in E. inversion E; subst op. discriminate Hp.
Qed.

(** ** The init-code *)

(** What [createInitCode] does: neither the index nor the factory of the
    instance has a part in it. *)
Lemma createInitCode_literals env index m :
  createInitCode env index m
  = (encoded <- ask (Call_encodeFunctionData (ecdsaOwnership (this m))
                       (moduleSetupData (this m)) 0)
                    (encodeFunctionData env (ecdsaOwnership (this m))
                       (moduleSetupData (this m)) 0) ;;
     ret (concat [factory_literal; hex_string encoded])) m.
Proof. reflexivity. Qed.

(** The two agree on an instance built on the factory of the literal, for
    the index zero or none. *)
Lemma createInitCode_agrees env index m :
  target (smartAccountFactoryContract (this m)) = factory_literal ->
  nullish index 0 = 0 ->
  createInitCode env index m = createInitCode_as_specified env index m.
Proof.
  intros Hf Hi. unfold createInitCode, createInitCode_as_specified, bind, self.
  rewrite Hf, Hi. reflexivity.
Qed.

(** C3, the code at two inputs.  On an instance constructed with another
    factory address the init-code still starts with the literal
    [0x000000a5...34F5]; called with index 1 the encoded call still
    carries index 0.  In both cases the result differs from what the
    specification describes. *)
Theorem createInitCode_diverges :
  let other := constructor Sample.owner Sample.otherFactoryAddress
                 Sample.entryPoint Sample.ecdsaModule in
  let setup := "0x2ede3bc0000000000000000000000000AAAAAaAAaAaAaaAaaAAAAAAAAaaaAaAaAaaAaaAa" in
  let call index :=
    hex_string (Sample.abi_address_bytes_uint "df20ffbc" Sample.ecdsaModule setup index) in
  (fst (createInitCode (Sample.env false) None (fresh other))
   = Ok (concat [factory_literal; call 0])
   /\ fst (createInitCode_as_specified (Sample.env false) None (fresh other))
      = Ok (concat [Sample.otherFactoryAddress; call 0])
   /\ concat [factory_literal; call 0] <> concat [Sample.otherFactoryAddress; call 0])
  /\
  (fst (createInitCode (Sample.env false) (Some 1) (fresh Sample.account))
   = Ok (concat [factory_literal; call 0])
   /\ fst (createInitCode_as_specified (Sample.env false) (Some 1) (fresh Sample.account))
      = Ok (concat [factory_literal; call 1])
   /\ concat [factory_literal; call 0] <> concat [factory_literal; call 1]).
Proof.
  cbv zeta. repeat split; try reflexivity; vm_compute; discriminate.
Qed.

(** ** Two runs from end to end *)

(** An undeployed account, no nonce and no gas limit in the details: the
    nonce is 0, the init-code is the literal followed by the encoded
    deploy call, the verification gas limit is 1,500,000 plus the
    estimate for the creation (300,000 in the sample), the signature is
    empty. *)
Example build_undeployed :
  exists op m',
    createUnsignedUserOp (Sample.env false) [Sample.details None None] None
      (fresh Sample.account) = (Ok op, m')
    /\ nonce (partialUserOp op) = 0
    /\ initCode (partialUserOp op)
       = concat [factory_literal;
                 hex_string (Sample.abi_address_bytes_uint "df20ffbc" Sample.ecdsaModule
                               (moduleSetupData Sample.account) 0)]
    /\ verificationGasLimit (partialUserOp op) = 1500000 + 300000
    /\ callGasLimit (partialUserOp op) = "0xc350"
    /\ signature op = "0x".
Proof.
  destruct (createUnsignedUserOp (Sample.env false) [Sample.details None None] None
              (fresh Sample.account)) as [r m'] eqn:E.
  vm_compute in E. inversion E; subst r m'; clear E.
  eexists. eexists. split; [reflexivity |]. vm_compute. repeat split.
Qed.

(** The same account once deployed, with the nonce 3 in the details: the
    nonce is 3, the init-code is empty, the verification gas limit is
    1,500,000.  (Without a nonce in the details the build for a deployed
    account ends at the call [nonce()], see [deployed_nonce_read_rejects].) *)
Example build_deployed :
  exists op m',
    createUnsignedUserOp (Sample.env true) [Sample.details None (Some 3)] None
      (fresh Sample.account) = (Ok op, m')
    /\ nonce (partialUserOp op) = 3
    /\ initCode (partialUserOp op) = "0x"
    /\ verificationGasLimit (partialUserOp op) = 1500000
    /\ signature op = "0x".
Proof.
  destruct (createUnsignedUserOp (Sample.env true) [Sample.details None (Some 3)] None
              (fresh Sample.account)) as [r m'] eqn:E.
  vm_compute in E. inversion E; subst r m'; clear E.
  eexists. eexists. split; [reflexivity |]. vm_compute. repeat split.
Qed.

(** * Beyond the settled statements *)

(** ** What the methods add to the log *)

Lemma silent_ret I P {A} (a : A) : silent I P (ret a).
Proof.
  intros m r m' Hi H. inversion H; subst. split; [exact Hi |].
  exists []. split; [symmetry; apply app_nil_r | reflexivity].
Qed.

Lemma silent_throw I P {A} e : silent I P (@throw A e).
Proof.
  intros m r m' Hi H. inversion H; subst. split; [exact Hi |].
  exists []. split; [symmetry; apply app_nil_r | reflexivity].
Qed.

Lemma silent_self I P : silent I P self.
Proof.
  intros m r m' Hi H. inversion H; subst. split; [exact Hi |].
  exists []. split; [symmetry; apply app_nil_r | reflexivity].
Qed.

Lemma silent_bind I P {A B} (c : M A) (k : A -> M B) :
  silent I P c -> (forall a, silent I P (k a)) -> silent I P (bind c k).
Proof.
  intros Hc Hk m r m' Hi. unfold bind.
  destruct (c m) as [[a | e] m1] eqn:E; intros H.
  - destruct (Hc _ _ _ Hi E) as (Hi1 & l1 & E1 & F1).
    destruct (Hk a _ _ _ Hi1 H) as (Hi2 & l2 & E2 & F2).
    split; [exact Hi2 |]. exists (l1 ++ l2)%list. split.
    + rewrite E2, E1. symmetry. apply app_assoc.
    + rewrite forallb_app, F1, F2. reflexivity.
  - inversion H; subst. apply (Hc _ _ _ Hi E).
Qed.

Lemma silent_await I P {A} (v : PromiseOrValue A) : silent I P (await v).
Proof.
  destruct v as [a | [a | e]]; simpl; [apply silent_ret | apply silent_ret | apply silent_throw].
Qed.

Lemma silent_read I P {T A} (o : option T) (p : T -> A) name : silent I P (read o p name).
Proof. destruct o; simpl; [apply silent_ret | apply silent_throw]. Qed.

Lemma silent_unawaited I P {A} (c : M A) : silent I P c -> silent I P (unawaited c).
Proof.
  intros Hc m r m' Hi. unfold unawaited. destruct (c m) as [x m1] eqn:E.
  intros H. inversion H; subst. apply (Hc _ _ _ Hi E).
Qed.

Lemma silent_deferred I P {A} (c : M A) : silent I P (deferred c).
Proof.
  intros m r m' Hi H. inversion H; subst. split; [exact Hi |].
  exists []. split; [symmetry; apply app_nil_r | reflexivity].
Qed.

(** A use of a collaborator, for the two invariants in use: none, and a
    cached address.  Neither looks at the log. *)
Lemma silent_ask_anywhere P {A} c (r : Reply A) :
  P c = true -> silent anywhere P (ask c r).
Proof.
  intros Hp m x m' _. unfold ask.
  destruct r; intros H; inversion H; subst; (split; [exact I |]);
    exists [c]; simpl; rewrite Hp; split; reflexivity.
Qed.

Lemma silent_ask_cached a P {A} c (r : Reply A) :
  P c = true -> silent (cached a) P (ask c r).
Proof.
  intros Hp m x m' Hi. unfold ask.
  destruct r; intros H; inversion H; subst; (split; [exact Hi |]);
    exists [c]; simpl; rewrite Hp; split; reflexivity.
Qed.

Create HintDb silent.

#[local] Hint Resolve silent_ret silent_throw silent_self silent_await silent_read
  silent_unawaited silent_deferred : silent.

Ltac silent_steps :=
  repeat first
    [ solve [auto with silent]
    | apply silent_ask_anywhere; reflexivity
    | apply silent_ask_cached; reflexivity
    | match goal with
      | |- silent _ _ (bind _ _) => apply silent_bind; [| intro]
      | |- silent _ _ (match ?x with _ => _ end) => destruct x
      | |- silent _ _ (if ?b then _ else _) => destruct b
      | |- silent _ _ (let '(_, _) := ?p in _) => destruct p
      end ].

(** With the address cached, [getAccountAddress] adds nothing. *)
Lemma silent_getAccountAddress_cached env a P :
  silent (cached a) P (getAccountAddress env).
Proof.
  intros m r m' [Ha Ht] H.
  rewrite (getAccountAddress_cached env m a Ha Ht) in H. inversion H; subst.
  split; [split; assumption |].
  exists []. split; [symmetry; apply app_nil_r | reflexivity].
Qed.

Lemma silent_getAccountContract_cached env a P :
  silent (cached a) P (getAccountContract env).
Proof.
  intros m r m' Hi. unfold getAccountContract, bind, self.
  destruct (smartAccountContract (this m)) as [c |].
  - apply (silent_ret (cached a) P c m r m' Hi).
  - destruct Hi as [Ha Ht].
    rewrite (getAccountAddress_cached env m a Ha Ht). unfold assign, ret.
    intros H. inversion H; subst. split; [split; assumption |].
    exists []. split; [symmetry; apply app_nil_r | reflexivity].
Qed.

#[local] Hint Resolve silent_getAccountAddress_cached silent_getAccountContract_cached : silent.

Section CachedAddress.

Variable env : Env.
Variable a : string.

Local Notation quiet := (silent (cached a) no_factory_call).

Lemma quiet_provider_estimateGas request : quiet (provider_estimateGas env request).
Proof. unfold provider_estimateGas. silent_steps. Qed.

Lemma quiet_encodeExecute t v d : quiet (encodeExecute env t v d).
Proof. unfold encodeExecute. silent_steps. Qed.

#[local] Hint Resolve quiet_provider_estimateGas quiet_encodeExecute : silent.

Lemma quiet_encodeUserOpCallDataAndGasLimit d :
  quiet (encodeUserOpCallDataAndGasLimit env d).
Proof. unfold encodeUserOpCallDataAndGasLimit. silent_steps. Qed.

Lemma quiet_estimateCreationGas i : quiet (estimateCreationGas env i).
Proof. unfold estimateCreationGas. silent_steps. Qed.

Lemma quiet_createInitCode i : quiet (createInitCode env i).
Proof. unfold createInitCode. silent_steps. Qed.

Lemma quiet_getPreVerificationGas u : quiet (getPreVerificationGas env u).
Proof. unfold getPreVerificationGas, resolveProperties. silent_steps. Qed.

Lemma quiet_getNonce : quiet (getNonce env).
Proof. unfold getNonce, isAccountDeploied. silent_steps. Qed.

Lemma quiet_isAccountDeploied : quiet (isAccountDeploied env).
Proof. unfold isAccountDeploied. silent_steps. Qed.

#[local] Hint Resolve quiet_encodeUserOpCallDataAndGasLimit quiet_estimateCreationGas
  quiet_createInitCode quiet_getPreVerificationGas quiet_getNonce : silent.

Lemma quiet_createUnsignedUserOp infos n : quiet (createUnsignedUserOp env infos n).
Proof. unfold createUnsignedUserOp, getVerificationGasLimit. silent_steps. Qed.

Lemma quiet_signUserOpHash u : quiet (signUserOpHash env u).
Proof. unfold signUserOpHash. silent_steps. Qed.

Lemma quiet_getUserOpHash u : quiet (getUserOpHash env u).
Proof. unfold getUserOpHash. silent_steps. Qed.

End CachedAddress.

Lemma quiet_perform a step m :
  cached a m ->
  cached a (perform step m)
  /\ exists l, calls (perform step m) = (calls m ++ l)%list
               /\ forallb no_factory_call l = true.
Proof.
  intros Hi. destruct step as [env op]. destruct op; unfold perform;
    match goal with
    | |- cached _ (snd ?run) /\ _ =>
        let E := fresh in
        destruct run as [r m'] eqn:E; unfold snd; revert E
    end; intros E.
  - apply (silent_getAccountAddress_cached env a _ _ _ _ Hi E).
  - apply (quiet_createUnsignedUserOp env a _ _ _ _ _ Hi E).
  - apply (quiet_encodeUserOpCallDataAndGasLimit env a _ _ _ _ Hi E).
  - apply (quiet_estimateCreationGas env a _ _ _ _ Hi E).
  - apply (quiet_encodeExecute env a _ _ _ _ _ _ Hi E).
  - apply (quiet_createInitCode env a _ _ _ _ Hi E).
  - apply (silent_ret (cached a) no_factory_call _ _ _ _ Hi E).
  - apply (quiet_getPreVerificationGas env a _ _ _ _ Hi E).
  - apply (quiet_getNonce env a _ _ _ Hi E).
  - apply (quiet_isAccountDeploied env a _ _ _ Hi E).
  - apply (silent_getAccountContract_cached env a _ _ _ _ Hi E).
  - apply (quiet_signUserOpHash env a _ _ _ _ Hi E).
  - apply (quiet_getUserOpHash env a _ _ _ _ Hi E).
Qed.

(** X1.  Once the address is cached, no method asks the factory again:
    whatever calls follow, against whatever environments, the entries
    they add to the log contain no [getAddressForCounterFactualAccount].
    Over the life of an instance the factory is asked until it answers
    once, and never after. *)
Theorem factory_never_asked_again a script : forall m,
  cached a m ->
  exists l, calls (run script m) = (calls m ++ l)%list
            /\ forallb no_factory_call l = true.
Proof.
  induction script as [| step script IH]; intros m Hi.
  - exists []. split; [symmetry; apply app_nil_r | reflexivity].
  - change (run (step :: script) m) with (run script (perform step m)).
    destruct (quiet_perform a step m Hi) as (Hi1 & l1 & E1 & F1).
    destruct (IH _ Hi1) as (l2 & E2 & F2).
    exists (l1 ++ l2)%list. split.
    + rewrite E2, E1. symmetry. apply app_assoc.
    + rewrite forallb_app, F1, F2. reflexivity.
Qed.

Lemma factory_never_asked_again_witness :
  let m := snd (getAccountAddress (Sample.env false) (fresh Sample.account)) in
  let script :=
    [ (Sample.env true, Op_createUnsignedUserOp [Sample.details None None] None);
      (Sample.env false, Op_getAccountContract);
      (Sample.env true, Op_isAccountDeploied) ] in
  cached (hex_string Sample.counterfactual) m
  /\ exists l, calls (run script m) = (calls m ++ l)%list
               /\ forallb no_factory_call l = true.
Proof.
  intros m script.
  assert (Hc : cached (hex_string Sample.counterfactual) m) by (split; reflexivity).
  split; [exact Hc | apply (factory_never_asked_again _ script m Hc)].
Defined.

(** ** What a build asks, given what the details carry *)

Lemma silent_assign_anywhere P f : silent anywhere P (assign f).
Proof.
  intros m r m' _ H. inversion H; subst. split; [exact I |].
  exists []. split; [symmetry; apply app_nil_r | reflexivity].
Qed.

#[local] Hint Resolve silent_assign_anywhere : silent.

Section NoAccountQuery.

Variable env : Env.

Local Notation hush := (silent anywhere no_account_query).

Lemma hush_getAccountAddress : hush (getAccountAddress env).
Proof. unfold getAccountAddress, resolveAccountAddress. silent_steps. Qed.

#[local] Hint Resolve hush_getAccountAddress : silent.

Lemma hush_getAccountContract : hush (getAccountContract env).
Proof. unfold getAccountContract. silent_steps. Qed.

#[local] Hint Resolve hush_getAccountContract : silent.

Lemma hush_encodeUserOpCallDataAndGasLimit d :
  hush (encodeUserOpCallDataAndGasLimit env d).
Proof.
  unfold encodeUserOpCallDataAndGasLimit, encodeExecute, provider_estimateGas.
  silent_steps.
Qed.

Lemma hush_estimateCreationGas i : hush (estimateCreationGas env i).
Proof. unfold estimateCreationGas, provider_estimateGas. silent_steps. Qed.

Lemma hush_createInitCode i : hush (createInitCode env i).
Proof. unfold createInitCode. silent_steps. Qed.

Lemma hush_getPreVerificationGas u : hush (getPreVerificationGas env u).
Proof. unfold getPreVerificationGas, resolveProperties. silent_steps. Qed.

End NoAccountQuery.

#[local] Hint Resolve hush_getAccountAddress hush_encodeUserOpCallDataAndGasLimit
  hush_estimateCreationGas hush_createInitCode hush_getPreVerificationGas : silent.

Lemma silent_bind_ret I P {A B} (a : A) (k : A -> M B) :
  silent I P (k a) -> silent I P (bind (ret a) k).
Proof. intros Hk m r m' Hi H. apply (Hk m r m' Hi H). Qed.

(** As [silent_steps], with a returned value passed on at once. *)
Ltac silent_steps_ret :=
  repeat first
    [ solve [auto with silent]
    | apply silent_ask_anywhere; reflexivity
    | match goal with
      | |- silent _ _ (bind (ret _) _) => apply silent_bind_ret; cbv beta iota
      | |- silent _ _ (bind _ _) => apply silent_bind; [| intro]
      | |- silent _ _ (match ?x with _ => _ end) => destruct x
      | |- silent _ _ (if ?b then _ else _) => destruct b
      | |- silent _ _ (let '(_, _) := ?p in _) => destruct p
      end ].

(** X2.  When the details carry a nonce (zero included), the build never
    asks the chain about the account: neither [getCode] nor [nonce()]
    appears among the entries it adds to the log, whether it succeeds or
    fails.  The init-code is then decided by the supplied nonce alone. *)
Theorem supplied_nonce_skips_the_chain env d k n m r m' :
  td_nonce d = Some k ->
  createUnsignedUserOp env [d] n m = (r, m') ->
  exists l, calls m' = (calls m ++ l)%list /\ forallb no_account_query l = true.
Proof.
  intros Hk H.
  assert (Hs : silent anywhere no_account_query (createUnsignedUserOp env [d] n)).
  { unfold createUnsignedUserOp, getVerificationGasLimit.
    cbn [List.length Nat.ltb Nat.leb nth_error read]. rewrite Hk.
    silent_steps_ret. }
  apply (Hs m r m' I H).
Qed.

Lemma supplied_nonce_skips_the_chain_witness :
  td_nonce (Sample.details None (Some 0)) = Some 0
  /\ exists l,
       calls (snd (createUnsignedUserOp (Sample.env true) [Sample.details None (Some 0)] None
                     (fresh Sample.account)))
       = (calls (fresh Sample.account) ++ l)%list
       /\ forallb no_account_query l = true.
Proof.
  split; [reflexivity |].
  destruct (createUnsignedUserOp (Sample.env true) [Sample.details None (Some 0)] None
              (fresh Sample.account)) as [r m'] eqn:E.
  unfold snd.
  exact (supplied_nonce_skips_the_chain (Sample.env true) (Sample.details None (Some 0)) 0
           None (fresh Sample.account) r m' eq_refl E).
Defined.

Section NoEstimate.

Variable env : Env.

Local Notation calm := (silent anywhere no_estimateGas).

Lemma calm_getAccountAddress : calm (getAccountAddress env).
Proof. unfold getAccountAddress, resolveAccountAddress. silent_steps. Qed.

#[local] Hint Resolve calm_getAccountAddress : silent.

Lemma calm_encodeExecute t v d : calm (encodeExecute env t v d).
Proof. unfold encodeExecute, getAccountContract. silent_steps. Qed.

Lemma calm_getPreVerificationGas u : calm (getPreVerificationGas env u).
Proof. unfold getPreVerificationGas, resolveProperties. silent_steps. Qed.

End NoEstimate.

#[local] Hint Resolve calm_getAccountAddress calm_encodeExecute calm_getPreVerificationGas
  : silent.

Lemma calm_encodeUserOpCallDataAndGasLimit env d g :
  gasLimit d = Some g -> g <> 0 ->
  silent anywhere no_estimateGas (encodeUserOpCallDataAndGasLimit env (Some d)).
Proof.
  intros Hg Hg0. apply Z.eqb_neq in Hg0.
  unfold encodeUserOpCallDataAndGasLimit, BigNumber.eq, BigNumber.from. cbn [read].
  do 3 (apply silent_bind_ret; cbv beta iota zeta).
  apply silent_bind; [apply calm_encodeExecute | intros callData_].
  apply silent_bind_ret; cbv beta iota zeta.
  rewrite Hg. cbn [nullish]. rewrite Hg0.
  silent_steps_ret.
Qed.

(** X3.  When the details carry a gas limit that is not zero and a nonce
    that is not zero, the build never uses the estimator: no
    [estimateGas] appears among the entries it adds to the log, whether
    it succeeds or fails. *)
Theorem supplied_gas_and_nonce_skip_the_estimator env d g k n m r m' :
  gasLimit d = Some g -> g <> 0 ->
  td_nonce d = Some k -> k <> 0 ->
  createUnsignedUserOp env [d] n m = (r, m') ->
  exists l, calls m' = (calls m ++ l)%list /\ forallb no_estimateGas l = true.
Proof.
  intros Hg Hg0 Hk Hk0 H.
  assert (Hs : silent anywhere no_estimateGas (createUnsignedUserOp env [d] n)).
  { unfold createUnsignedUserOp, getVerificationGasLimit, BigNumber.eq, BigNumber.from.
    cbn [List.length Nat.ltb Nat.leb nth_error read].
    apply silent_bind; [apply (calm_encodeUserOpCallDataAndGasLimit env d g Hg Hg0) |].
    intros [callData_ callGasLimit_].
    rewrite Hk. do 2 (apply silent_bind_ret; cbv beta iota zeta).
    apply Z.eqb_neq in Hk0. rewrite Hk0.
    apply silent_bind_ret; cbv beta iota zeta.
    change (estimateCreationGas env (Some "0x")) with (@ret Z 0).
    silent_steps_ret. }
  apply (Hs m r m' I H).
Qed.

Lemma supplied_gas_and_nonce_skip_the_estimator_witness :
  gasLimit (Sample.details (Some 77) (Some 4)) = Some 77 /\ 77 <> 0
  /\ td_nonce (Sample.details (Some 77) (Some 4)) = Some 4 /\ 4 <> 0
  /\ exists l,
       calls (snd (createUnsignedUserOp (Sample.env false)
                     [Sample.details (Some 77) (Some 4)] None (fresh Sample.account)))
       = (calls (fresh Sample.account) ++ l)%list
       /\ forallb no_estimateGas l = true.
Proof.
  assert (H77 : 77 <> 0) by discriminate.
  assert (H4 : 4 <> 0) by discriminate.
  repeat split; try assumption.
  destruct (createUnsignedUserOp (Sample.env false) [Sample.details (Some 77) (Some 4)] None
              (fresh Sample.account)) as [r m'] eqn:E.
  unfold snd.
  exact (supplied_gas_and_nonce_skip_the_estimator (Sample.env false)
           (Sample.details (Some 77) (Some 4)) 77 4 None (fresh Sample.account) r m'
           eq_refl H77 eq_refl H4 E).
Defined.

(** ** When the overhead is computed *)

Section BeforeTheOverhead.

Variable env : Env.

Local Notation early := (silent anywhere no_calcPreVerificationGas).

Lemma early_getAccountAddress : early (getAccountAddress env).
Proof. unfold getAccountAddress, resolveAccountAddress. silent_steps. Qed.

#[local] Hint Resolve early_getAccountAddress : silent.

Lemma early_getAccountContract : early (getAccountContract env).
Proof. unfold getAccountContract. silent_steps. Qed.

#[local] Hint Resolve early_getAccountContract : silent.

Lemma early_encodeUserOpCallDataAndGasLimit d :
  early (encodeUserOpCallDataAndGasLimit env d).
Proof.
  unfold encodeUserOpCallDataAndGasLimit, encodeExecute, provider_estimateGas.
  silent_steps.
Qed.

Lemma early_getNonce : early (getNonce env).
Proof. unfold getNonce, isAccountDeploied. silent_steps. Qed.

Lemma early_createInitCode i : early (createInitCode env i).
Proof. unfold createInitCode. silent_steps. Qed.

Lemma early_estimateCreationGas i : early (estimateCreationGas env i).
Proof. unfold estimateCreationGas, provider_estimateGas. silent_steps. Qed.

End BeforeTheOverhead.

(** Up to the awaited call of line 82, a build does not use
    [calcPreVerificationGas]. *)
Lemma anatomy_log env m d op m' :
  anatomy env m d op m' ->
  exists a before,
    sender (partialUserOp op) = Promise (Ok a)
    /\ calls m' = (calls m ++ before
                   ++ [Call_calcPreVerificationGas (resolved a (partialUserOp op))])%list
    /\ forallb no_calcPreVerificationGas before = true.
Proof.
  intros (m1 & m2 & m3 & m4 & m5 & initGas & chainId & feeData & a & g
          & Henc & Hnonce & Hic & Hgas & _ & _ & _ & _ & _ & _ & Hacc & Hs & _ & _ & _ & ->).
  destruct (early_encodeUserOpCallDataAndGasLimit env _ _ _ _ I Henc) as (_ & l1 & E1 & F1).
  assert (H2 : exists l2, calls m2 = (calls m1 ++ l2)%list
                          /\ forallb no_calcPreVerificationGas l2 = true).
  { destruct (td_nonce d).
    - apply (silent_ret anywhere no_calcPreVerificationGas _ _ _ _ I Hnonce).
    - apply (early_getNonce env _ _ _ I Hnonce). }
  destruct H2 as (l2 & E2 & F2).
  assert (H3 : exists l3, calls m3 = (calls m2 ++ l3)%list
                          /\ forallb no_calcPreVerificationGas l3 = true).
  { destruct (nonce (partialUserOp op) =? 0).
    - apply (early_createInitCode env _ _ _ _ I Hic).
    - apply (silent_ret anywhere no_calcPreVerificationGas _ _ _ _ I Hic). }
  destruct H3 as (l3 & E3 & F3).
  destruct (early_estimateCreationGas env _ _ _ _ I Hgas) as (_ & l4 & E4 & F4).
  destruct (early_getAccountAddress env _ _ _ I Hacc) as (_ & l5 & E5 & F5).
  exists a, (l1 ++ l2 ++ l3 ++ l4 ++ [Call_getNetwork; Call_getFeeDataFromParticle chainId]
             ++ l5)%list.
  split; [exact Hs |]. split.
  - unfold logged in *. cbn [calls] in *. rewrite E5, E4, E3, E2, E1.
    repeat rewrite <- app_assoc. reflexivity.
  - repeat rewrite forallb_app. rewrite F1, F2, F3, F4, F5. reflexivity.
Qed.

(** C2, amended.  The preVerificationGas field of the operation of a
    successful build is the promise that the call
    [this.getPreVerificationGas(partialUserOp)] of line 86, which is not
    awaited, has returned.  That promise settles to the integer that
    [calcPreVerificationGas] returns for the assembled partial record with
    its sender resolved.  It is created after every other field is
    determined: the collaborators that determine the other fields have
    all been used before, and the one use of [calcPreVerificationGas]
    during the build, the awaited one of line 82 on the same record, is
    the last thing the build does; the call behind the promise has not
    run when the build returns. *)
Theorem preVerificationGas_promises_the_integer env infos n m op m' :
  createUnsignedUserOp env infos n m = (Ok op, m') ->
  let u := partialUserOp op in
  exists a g,
    sender u = Promise (Ok a)
    /\ preVerificationGas op = Promise (Ok g)
    /\ calcPreVerificationGas env (resolved a u) = inr g
    /\ exists before,
         calls m' = (calls m ++ before ++ [Call_calcPreVerificationGas (resolved a u)])%list
         /\ forallb no_calcPreVerificationGas before = true.
Proof.
  intros H u. apply createUnsignedUserOp_Ok in H. destruct H as (d & Hd & Han).
  destruct (anatomy_log _ _ _ _ _ Han) as (a & before & Hs & Hlog & Hbefore).
  destruct Han as (m1 & m2 & m3 & m4 & m5 & initGas & chainId & feeData & a' & g
                   & _ & _ & _ & _ & _ & _ & _ & _ & _ & _ & _ & Hs' & Hcalc & Hp & _).
  fold u in Hs, Hs', Hcalc, Hlog. rewrite Hs in Hs'. inversion Hs'; subst a'.
  exists a, g. repeat split; try assumption.
  exists before. split; assumption.
Qed.

Lemma preVerificationGas_promises_the_integer_witness :
  exists op m',
    createUnsignedUserOp (Sample.env false) [Sample.details (Some 77) None] None
      (fresh Sample.account) = (Ok op, m')
    /\ preVerificationGas op = Promise (Ok 26600)
    /\ List.length (filter is_calcPreVerificationGas (calls m')) = 1%nat.
Proof.
  destruct (createUnsignedUserOp (Sample.env false) [Sample.details (Some 77) None] None
              (fresh Sample.account)) as [[op | e] m'] eqn:E; [| vm_compute in E; discriminate E].
  exists op, m'. split; [reflexivity |].
  destruct (preVerificationGas_promises_the_integer _ _ _ _ _ _ E)
    as (a & g & _ & Hp & _ & before & Hlog & Hbefore).
  pose proof E as E'. vm_compute in E'. inversion E'; subst op m'.
  split; [reflexivity | reflexivity].
Defined.

(** ** Failures *)

Lemma bind_ret_run {A B} (a : A) (k : A -> M B) m : bind (ret a) k m = k a m.
Proof. reflexivity. Qed.



(** A failure that follows steps that went well is a failure of the
    whole run. *)
Lemma blamed_since_after env m m1 m' e :
  (exists l1, calls m1 = (calls m ++ l1)%list) ->
  blamed_since env m1 m' e -> blamed_since env m m' e.
Proof.
  intros [l1 E1] (reason & l & c & He & Hl & Hf).
  exists reason, (l1 ++ l)%list, c. rewrite Hl, E1. repeat rewrite <- app_assoc. auto.
Qed.

Lemma grows_steady {A} (c : M A) : steady c -> grows c.
Proof. intros Hc m r m' H. apply (ev_calls _ _ (Hc _ _ _ H)). Qed.

Lemma grows_assign f : grows (assign f).
Proof.
  intros m r m' H. inversion H; subst. exists []. symmetry. apply app_nil_r.
Qed.

Create HintDb grows.

#[local] Hint Resolve grows_assign : grows.
#[local] Hint Extern 1 (grows _) => apply grows_steady; solve [auto with steady] : grows.

Lemma since_ret env {A} (a : A) : faithful_since env (ret a).
Proof. intros m e m' H. discriminate H. Qed.

Lemma since_self env : faithful_since env self.
Proof. intros m e m' H. discriminate H. Qed.

Lemma since_assign env f : faithful_since env (assign f).
Proof. intros m e m' H. discriminate H. Qed.

Lemma since_bind env {A B} (c : M A) (k : A -> M B) :
  grows c -> faithful_since env c -> (forall a, faithful_since env (k a)) ->
  faithful_since env (bind c k).
Proof.
  intros Hs Hc Hk m e m' H. apply bind_Err in H. destruct H as [H | (a & m1 & Ha & H)].
  - apply (Hc _ _ _ H).
  - apply (blamed_since_after env m m1); [apply (Hs _ _ _ Ha) | apply (Hk a _ _ _ H)].
Qed.

(** A use of a collaborator whose logged entry names the very question
    that is asked. *)
Lemma since_ask env {A} c (r : Reply A) :
  (forall t, failure env t c = failure_of r) -> faithful_since env (ask c r).
Proof.
  intros Hc m e m'. unfold ask. destruct r as [reason | a]; intros H; inversion H; subst.
  exists reason, [], c. repeat split. simpl. apply Hc.
Qed.

Lemma awaits_since_await env {A} (p : PromiseOrValue A) : awaits_since env p (await p).
Proof.
  intros m e m'. destruct p as [a | [a | e0]]; simpl; unfold ret, throw;
    intros H; inversion H; subst.
  left. split; reflexivity.
Qed.

Lemma awaits_since_bind env {A B C} (p : PromiseOrValue A) (c : M B) (k : B -> M C) :
  grows c -> awaits_since env p c -> (forall b, faithful_since env (k b)) ->
  awaits_since env p (bind c k).
Proof.
  intros Hs Hc Hk m e m' H. apply bind_Err in H. destruct H as [H | (b & m1 & Hb & H)].
  - apply (Hc _ _ _ H).
  - right. apply (blamed_since_after env m m1); [apply (Hs _ _ _ Hb) | apply (Hk b _ _ _ H)].
Qed.

(** A call that is not awaited, followed by a computation that awaits its
    promise first. *)
Lemma since_unawaited env {A B} (c : M A) (k : PromiseOrValue A -> M B) :
  grows c -> faithful_since env c -> (forall p, awaits_since env p (k p)) ->
  faithful_since env (bind (unawaited c) k).
Proof.
  intros Hs Hc Hk m e m'. unfold bind, unawaited.
  destruct (c m) as [r m1] eqn:E. intros H.
  destruct (Hk _ _ _ _ H) as [[Hp ->] | Hb].
  - inversion Hp; subst r. apply (Hc _ _ _ E).
  - apply (blamed_since_after env m m1); [apply (Hs _ _ _ E) | exact Hb].
Qed.

(** A call that is not awaited and whose promise is only stored. *)
Lemma since_deferred env {A B} (c : M A) (k : PromiseOrValue A -> M B) :
  (forall p, faithful_since env (k p)) -> faithful_since env (bind (deferred c) k).
Proof. intros Hk m e m' H. apply (Hk _ _ _ _ H). Qed.

Create HintDb faithful.

#[local] Hint Resolve since_ret since_self since_assign : faithful.

Ltac since_steps :=
  repeat first
    [ solve [auto with faithful]
    | apply since_ask; intro; reflexivity
    | match goal with
      | |- faithful_since _ (bind _ _) =>
          apply since_bind; [solve [auto with grows] | | intro]
      | |- faithful_since _ (match ?x with _ => _ end) => destruct x
      | |- faithful_since _ (if ?b then _ else _) => destruct b
      | |- faithful_since _ (let '(_, _) := ?p in _) => destruct p
      end ].

Section Faithful.

Variable env : Env.

Lemma since_getAccountAddress : faithful_since env (getAccountAddress env).
Proof. unfold getAccountAddress, resolveAccountAddress. since_steps. Qed.

#[local] Hint Resolve since_getAccountAddress : faithful.

Lemma since_getAccountContract : faithful_since env (getAccountContract env).
Proof. unfold getAccountContract. since_steps. Qed.

#[local] Hint Resolve since_getAccountContract : faithful.

Lemma since_encodeExecute t v d : faithful_since env (encodeExecute env t v d).
Proof. unfold encodeExecute. since_steps. Qed.

#[local] Hint Resolve since_encodeExecute : faithful.

Lemma awaits_since_provider_estimateGas request :
  awaits_since env (tx_to request) (provider_estimateGas env request).
Proof.
  unfold provider_estimateGas.
  apply awaits_since_bind; [solve [auto with grows] | apply awaits_since_await |].
  intros to_. apply since_ask. intro. reflexivity.
Qed.

Lemma since_encodeUserOpCallDataAndGasLimit d :
  faithful_since env (encodeUserOpCallDataAndGasLimit env (Some d)).
Proof.
  unfold encodeUserOpCallDataAndGasLimit. cbn [read].
  apply since_bind; [solve [auto with grows] | auto with faithful | intros v].
  apply since_bind; [solve [auto with grows] | auto with faithful | intros t].
  apply since_bind; [solve [auto with grows] | auto with faithful | intros dt].
  apply since_bind; [solve [auto with grows] | auto with faithful | intros cd].
  apply since_bind; [solve [auto with grows] | auto with faithful | intros g].
  apply since_bind; [| | auto with faithful].
  - apply grows_steady. destruct (BigNumber.eq _ _); [| auto with steady]. steady_steps.
  - destruct (BigNumber.eq _ _); [| auto with faithful].
    apply since_bind; [solve [auto with grows] | auto with faithful | intros t0].
    apply since_unawaited; [solve [auto with grows] | auto with faithful | intros p].
    apply awaits_since_bind; [solve [auto with grows] | | auto with faithful].
    apply (awaits_since_provider_estimateGas
             {| tx_from := Some (entryPointAddress t0); tx_to := p; tx_data := cd |}).
Qed.

Lemma since_estimateCreationGas i : faithful_since env (estimateCreationGas env i).
Proof.
  unfold estimateCreationGas. destruct i as [ic |]; [| auto with faithful].
  destruct (_ || _); [auto with faithful |].
  intros m e m' H.
  destruct (awaits_since_provider_estimateGas _ _ _ _ H) as [[Hp _] | Hb]; [| exact Hb].
  discriminate Hp.
Qed.

Lemma since_createInitCode i : faithful_since env (createInitCode env i).
Proof. unfold createInitCode. since_steps. Qed.

Lemma since_isAccountDeploied : faithful_since env (isAccountDeploied env).
Proof. unfold isAccountDeploied. since_steps. Qed.

#[local] Hint Resolve since_isAccountDeploied : faithful.

Lemma since_getNonce : faithful_since env (getNonce env).
Proof. unfold getNonce. since_steps. Qed.

Lemma awaits_since_getPreVerificationGas u :
  awaits_since env (sender u) (getPreVerificationGas env u).
Proof.
  unfold getPreVerificationGas.
  apply awaits_since_bind; [solve [auto with grows] | |].
  - unfold resolveProperties.
    apply awaits_since_bind; [solve [auto with grows] | apply awaits_since_await | auto with faithful].
  - intros p. apply since_ask. intro. reflexivity.
Qed.

(** [signUserOpHash] and [getUserOpHash] ask in the name of the owner and
    of the EntryPoint of the instance, which no step changes. *)
Lemma since_signUserOpHash u : faithful_since env (signUserOpHash env u).
Proof.
  unfold signUserOpHash. intros m e m' H.
  apply bind_Err in H. destruct H as [H | (t & m1 & Ht & H)]; [discriminate H |].
  apply self_Ok in Ht. destruct Ht as [-> ->].
  apply bind_Err in H. destruct H as [H | (bytes & m2 & Hb & H)].
  - revert H. apply since_ask. intro. reflexivity.
  - apply ask_Ok in Hb. destruct Hb as [_ ->].
    unfold ask in H. destruct (signMessage env (owner (this m)) bytes) as [reason | s] eqn:Es;
      inversion H; subst.
    exists reason, [Call_arrayify u], (Call_signMessage bytes).
    split; [reflexivity |]. split; [cbn [calls]; rewrite <- app_assoc; reflexivity |].
    simpl. rewrite Es. reflexivity.
Qed.

Lemma since_getUserOpHash u : faithful_since env (getUserOpHash env u).
Proof.
  unfold getUserOpHash. intros m e m' H.
  apply bind_Err in H. destruct H as [H | (t & m1 & Ht & H)]; [discriminate H |].
  apply self_Ok in Ht. destruct Ht as [-> ->].
  unfold ask in H.
  destruct (entryPoint_getUserOpHash env (epContract (this m)) u) as [reason | s] eqn:Es;
    inversion H; subst.
  exists reason, [], (Call_getUserOpHash u). repeat split. simpl. rewrite Es. reflexivity.
Qed.

Lemma since_build d n : faithful_since env (createUnsignedUserOp env [d] n).
Proof.
  unfold createUnsignedUserOp, getVerificationGasLimit.
  cbn [List.length Nat.ltb Nat.leb nth_error read].
  apply since_bind;
    [solve [auto with grows] | apply since_encodeUserOpCallDataAndGasLimit | intros [cd cgl]].
  apply since_bind; [solve [auto with grows] | auto with faithful | intros k].
  apply since_bind;
    [destruct k; auto with grows
    | destruct k; [auto with faithful | apply since_getNonce]
    | intros nonce_].
  apply since_bind;
    [destruct (BigNumber.eq _ _); auto with grows
    | destruct (BigNumber.eq _ _); [apply since_createInitCode | auto with faithful]
    | intros ic].
  apply since_bind; [solve [auto with grows] | apply since_estimateCreationGas | intros initGas].
  apply since_bind; [solve [auto with grows] | auto with faithful | intros base].
  apply since_bind; [solve [auto with grows] | apply since_ask; intro; reflexivity | intros chainId].
  apply since_bind; [solve [auto with grows] | apply since_ask; intro; reflexivity | intros feeData].
  apply since_unawaited; [solve [auto with grows] | auto with faithful | intros p].
  apply awaits_since_bind; [solve [auto with grows] | |].
  - apply (awaits_since_getPreVerificationGas
             {| sender := p; nonce := nonce_; initCode := ic; callData := cd;
                callGasLimit := cgl;
                verificationGasLimit := BigNumber.add (BigNumber.from base) initGas;
                maxFeePerGas := fee_maxFeePerGas feeData;
                maxPriorityFeePerGas := fee_maxPriorityFeePerGas feeData;
                paymasterAndData := "0x" |}).
  - intros _. apply since_deferred. intros pv. auto with faithful.
Qed.


End Faithful.



(** X5.  The other methods fail the same way: an exception of
    [getAccountAddress], [getAccountContract], [encodeExecute],
    [estimateCreationGas], [createInitCode], [isAccountDeploied],
    [getNonce], [signUserOpHash] or [getUserOpHash] is the rejection of a
    collaborator used during that call, the one used last, with its
    reason.  In particular [signUserOpHash] does not sign when [arrayify]
    rejects the input: it ends with that rejection, and [arrayify] is
    the only collaborator it has used. *)
Theorem methods_fail_faithfully env :
  faithful_since env (getAccountAddress env)
  /\ faithful_since env (getAccountContract env)
  /\ (forall t v d, faithful_since env (encodeExecute env t v d))
  /\ (forall i, faithful_since env (estimateCreationGas env i))
  /\ (forall i, faithful_since env (createInitCode env i))
  /\ faithful_since env (isAccountDeploied env)
  /\ faithful_since env (getNonce env)
  /\ (forall u, faithful_since env (signUserOpHash env u))
  /\ (forall u, faithful_since env (getUserOpHash env u))
  /\ (forall u reason m,
        arrayify env u = inl reason ->
        signUserOpHash env u m = (Err (Rejected reason), logged (Call_arrayify u) m)).
Proof.
  repeat split.
  - apply since_getAccountAddress.
  - apply since_getAccountContract.
  - apply since_encodeExecute.
  - apply since_estimateCreationGas.
  - apply since_createInitCode.
  - apply since_isAccountDeploied.
  - apply since_getNonce.
  - apply since_signUserOpHash.
  - apply since_getUserOpHash.
  - intros u reason m Hr. unfold signUserOpHash, bind, self, ask. rewrite Hr. reflexivity.
Qed.

Lemma methods_fail_faithfully_witness :
  let env := Sample.env false in
  let m := fresh Sample.account in
  arrayify env "zz" = inl "invalid arrayify value"
  /\ signUserOpHash env "zz" m
     = (Err (Rejected "invalid arrayify value"), logged (Call_arrayify "zz") m)
  /\ blamed_since env m (logged (Call_arrayify "zz") m) (Rejected "invalid arrayify value").
Proof.
  intros env m.
  assert (Hr : arrayify env "zz" = inl "invalid arrayify value") by reflexivity.
  destruct (methods_fail_faithfully env) as (_ & _ & _ & _ & _ & _ & _ & Hsign & _ & Hstop).
  split; [exact Hr |]. split; [exact (Hstop "zz" _ m Hr) |].
  exact (Hsign "zz" m _ _ (Hstop "zz" _ m Hr)).
Defined.

(** X6.  A build for one transaction returns an operation unless a
    collaborator it has asked rejects: when every entry the build has
    added to the log stands for a question that was answered, the result
    is an operation.  Only the questions the build asks count; what the
    collaborators say to other questions has no part. *)
Theorem build_returns_unless_rejected env d n m r m' l :
  createUnsignedUserOp env [d] n m = (r, m') ->
  calls m' = (calls m ++ l)%list ->
  forallb (answered env (this m')) l = true ->
  exists op, r = Ok op.
Proof.
  intros H Hl Hall. destruct r as [op | e]; [exists op; reflexivity | exfalso].
  destruct (since_build env d n _ _ _ H) as (reason & l0 & c & _ & Hl0 & Hf).
  rewrite Hl in Hl0. apply app_inv_head in Hl0. subst l.
  rewrite forallb_app in Hall. apply andb_true_iff in Hall. destruct Hall as [_ Hc].
  cbn [forallb] in Hc. unfold answered in Hc. rewrite Hf in Hc. discriminate Hc.
Qed.

Lemma build_returns_unless_rejected_witness :
  let env := Sample.env false in
  let build :=
    createUnsignedUserOp env [Sample.details None None] None (fresh Sample.account) in
  calls (snd build) = (calls (fresh Sample.account) ++ calls (snd build))%list
  /\ forallb (answered env (this (snd build))) (calls (snd build)) = true
  /\ exists op, fst build = Ok op.
Proof.
  cbv zeta.
  assert (Hall : forallb
            (answered (Sample.env false)
               (this (snd (createUnsignedUserOp (Sample.env false) [Sample.details None None]
                             None (fresh Sample.account)))))
            (calls (snd (createUnsignedUserOp (Sample.env false) [Sample.details None None]
                           None (fresh Sample.account)))) = true)
    by (vm_compute; reflexivity).
  split; [reflexivity |]. split; [exact Hall |].
  destruct (createUnsignedUserOp (Sample.env false) [Sample.details None None] None
              (fresh Sample.account)) as [r m'] eqn:E.
  cbn [fst snd] in *.
  exact (build_returns_unless_rejected _ _ _ _ _ _ (calls m') E eq_refl Hall).
Defined.

(** ** The contract handle and the instance *)

(** X7.  [getAccountContract] memoizes: once it has returned a handle,
    every later call returns that handle, whatever methods ran in between
    and against whatever environments, and leaves the machine as it finds
    it.  On a consistent instance the handle points at the account
    address: [getAccountAddress] returns its target from then on. *)
Theorem getAccountContract_memoized env m c m1 :
  getAccountContract env m = (Ok c, m1) ->
  forall script env',
    getAccountContract env' (run script m1) = (Ok c, run script m1)
    /\ (consistent (this m) ->
        getAccountAddress env' (run script m1) = (Ok (target c), run script m1)).
Proof.
  intros H script env'.
  destruct (getAccountContract_spec _ _ _ _ H) as [_ Hc].
  destruct (Hc c eq_refl) as [Hsome Hcons].
  pose proof (evolves_run script m1) as Hev. split.
  - unfold getAccountContract, bind, self.
    rewrite (ev_contract _ _ Hev c Hsome). reflexivity.
  - intros Hi. destruct (Hcons Hi) as [Ha Ht].
    apply getAccountAddress_cached; [| exact Ht].
    apply (ev_address _ _ Hev); assumption.
Qed.

Lemma getAccountContract_memoized_witness :
  let script :=
    [ (Sample.env true, Op_getNonce);
      (Sample.env false, Op_createUnsignedUserOp [Sample.details None None] None) ] in
  exists m1,
    getAccountContract (Sample.env false) (fresh Sample.account)
    = (Ok {| target := hex_string Sample.counterfactual |}, m1)
    /\ getAccountContract (Sample.env true) (run script m1)
       = (Ok {| target := hex_string Sample.counterfactual |}, run script m1).
Proof.
  intros script.
  destruct (getAccountContract (Sample.env false) (fresh Sample.account)) as [r m1] eqn:E.
  assert (Hr : r = Ok {| target := hex_string Sample.counterfactual |})
    by (pose proof E as E'; vm_compute in E'; inversion E'; reflexivity).
  subst r. exists m1. split; [reflexivity |].
  apply (getAccountContract_memoized _ _ _ _ E script (Sample.env true)).
Defined.

(** X8.  What holds of an instance for its whole life, whatever methods
    are called on it after the constructor: the owner, the two contracts,
    the entry point and the module are those the constructor was given; a
    cached handle points at the cached address, which is then what
    [getAccountAddress] returns. *)
Theorem instance_invariant owner_ factoryAddress entryPointAddress_ ecdsaModule script :
  let t := this (run script
                   (fresh (constructor owner_ factoryAddress entryPointAddress_ ecdsaModule))) in
  owner t = owner_
  /\ smartAccountFactoryContract t = {| target := factoryAddress |}
  /\ epContract t = {| target := entryPointAddress_ |}
  /\ entryPointAddress t = entryPointAddress_
  /\ ecdsaOwnership t = ecdsaModule
  /\ forall c, smartAccountContract t = Some c ->
       forall env m, this m = t -> getAccountAddress env m = (Ok (target c), m).
Proof.
  intros t.
  pose proof (evolves_run script
                (fresh (constructor owner_ factoryAddress entryPointAddress_ ecdsaModule)))
    as Hev.
  pose proof (ev_config _ _ Hev) as Hcfg. unfold config in Hcfg. fold t in Hcfg.
  inversion Hcfg as [[He Hf Hp Hm Ho]].
  repeat split; try reflexivity.
  intros c Hc env m Hm'.
  assert (Hi : consistent t).
  { apply (ev_consistent _ _ Hev). intros c0 Hc0. discriminate Hc0. }
  destruct (Hi c Hc) as [Ha Ht].
  apply getAccountAddress_cached; [rewrite Hm'; exact Ha | exact Ht].
Qed.

(** What [getAccountAddress] does on an empty cache. *)
Lemma getAccountAddress_cold env m :
  accountAddress (this m) = None ->
  getAccountAddress env m
  = let c := Call_getAddressForCounterFactualAccount (smartAccountFactoryContract (this m))
               (ecdsaOwnership (this m)) (moduleSetupData (this m)) 0 in
    match getAddressForCounterFactualAccount env (smartAccountFactoryContract (this m))
            (ecdsaOwnership (this m)) (moduleSetupData (this m)) 0 with
    | inl reason => (Err (Rejected reason), logged c m)
    | inr h => (Ok (hex_string h),
                {| this := set_accountAddress (hex_string h) (this m);
                   calls := (calls m ++ [c])%list |})
    end.
Proof.
  intros Hnone. unfold getAccountAddress, resolveAccountAddress, bind, self, ask.
  rewrite Hnone.
  destruct (getAddressForCounterFactualAccount env _ _ _ _); reflexivity.
Qed.

Lemma instance_invariant_witness :
  let script :=
    [ (Sample.env false, Op_getAccountContract);
      (Sample.env true, Op_createUnsignedUserOp [Sample.details None None] None) ] in
  let t := this (run script (fresh Sample.account)) in
  owner t = Sample.owner
  /\ smartAccountContract t = Some {| target := hex_string Sample.counterfactual |}
  /\ getAccountAddress (Sample.env true) (run script (fresh Sample.account))
     = (Ok (hex_string Sample.counterfactual), run script (fresh Sample.account)).
Proof.
  intros script t.
  destruct (instance_invariant Sample.owner Sample.factoryAddress Sample.entryPoint
              Sample.ecdsaModule script) as (Ho & _ & _ & _ & _ & Hhandle).
  assert (Hc : smartAccountContract t = Some {| target := hex_string Sample.counterfactual |})
    by reflexivity.
  split; [exact Ho |]. split; [exact Hc |].
  exact (Hhandle _ Hc (Sample.env true) (run script (fresh Sample.account)) eq_refl).
Defined.

(** X9.  A failed resolution is not cached.  When the cache is empty and
    the factory rejects the view call, [getAccountAddress] throws that
    rejection and leaves the cache empty; a later call asks the factory
    again, and caches and returns the address once the factory
    answers. *)
Theorem failed_resolution_is_retried env m reason :
  accountAddress (this m) = None ->
  getAddressForCounterFactualAccount env (smartAccountFactoryContract (this m))
    (ecdsaOwnership (this m)) (moduleSetupData (this m)) 0 = inl reason ->
  exists m1,
    getAccountAddress env m = (Err (Rejected reason), m1)
    /\ accountAddress (this m1) = None
    /\ forall env' h,
         getAddressForCounterFactualAccount env' (smartAccountFactoryContract (this m))
           (ecdsaOwnership (this m)) (moduleSetupData (this m)) 0 = inr h ->
         exists m2,
           getAccountAddress env' m1 = (Ok (hex_string h), m2)
           /\ accountAddress (this m2) = Some (hex_string h).
Proof.
  intros Hnone Hfail.
  exists (logged (Call_getAddressForCounterFactualAccount (smartAccountFactoryContract (this m))
                    (ecdsaOwnership (this m)) (moduleSetupData (this m)) 0) m).
  split; [| split].
  - rewrite (getAccountAddress_cold env m Hnone). cbv zeta. rewrite Hfail. reflexivity.
  - exact Hnone.
  - intros env' h Hok. eexists. split.
    + rewrite getAccountAddress_cold by exact Hnone.
      change (this (logged _ m)) with (this m). cbv zeta. rewrite Hok. reflexivity.
    + reflexivity.
Qed.

Lemma failed_resolution_is_retried_witness :
  let env := Sample.env false in
  let down :=
    {| getAddressForCounterFactualAccount := fun _ _ _ _ => inl "timeout";
       getCode := getCode env;
       estimateGas := estimateGas env;
       getNetwork := getNetwork env;
       account_nonce := account_nonce env;
       execute_ncC := execute_ncC env;
       getFeeDataFromParticle := getFeeDataFromParticle env;
       calcPreVerificationGas := calcPreVerificationGas env;
       encodeFunctionData := encodeFunctionData env;
       toHexString := toHexString env;
       arrayify := arrayify env;
       signMessage := signMessage env;
       entryPoint_getUserOpHash := entryPoint_getUserOpHash env |} in
  exists m1,
    getAccountAddress down (fresh Sample.account) = (Err (Rejected "timeout"), m1)
    /\ exists m2,
         getAccountAddress env m1 = (Ok (hex_string Sample.counterfactual), m2).
Proof.
  intros env down.
  destruct (failed_resolution_is_retried down (fresh Sample.account) "timeout"
              eq_refl eq_refl) as (m1 & Hfail & _ & Hretry).
  exists m1. split; [exact Hfail |].
  destruct (Hretry env Sample.counterfactual eq_refl) as (m2 & Hok & _).
  exists m2. exact Hok.
Defined.

(** ** What a build reads of its arguments *)

(** X10.  A build reads five things of its arguments: the destination,
    the data, the value (an absent value counting as zero), the gas limit
    (an absent limit counting as zero) and the nonce of the details.  Two
    details that agree on these give the same result and the same
    machine: the [maxFeePerGas] and [maxPriorityFeePerGas] a caller puts
    in the details are not read, nor is the second argument of
    [createUnsignedUserOp]. *)
Theorem build_reads_five_fields env d d' n n' m :
  to d = to d' ->
  data d = data d' ->
  nullish (value d) 0 = nullish (value d') 0 ->
  nullish (gasLimit d) 0 = nullish (gasLimit d') 0 ->
  td_nonce d = td_nonce d' ->
  createUnsignedUserOp env [d] n m = createUnsignedUserOp env [d'] n' m.
Proof.
  intros Hto Hdata Hvalue Hgas Hnonce.
  unfold createUnsignedUserOp, encodeUserOpCallDataAndGasLimit.
  cbv beta iota delta [bind ret read nth_error List.length Nat.ltb Nat.leb].
  rewrite Hto, Hdata, Hvalue, Hgas, Hnonce. reflexivity.
Qed.

Lemma build_reads_five_fields_witness :
  let d := Sample.details None (Some 2) in
  let d' :=
    {| gasLimit := Some 0;
       value := None;
       to := Sample.destination;
       data := "0x";
       td_maxPriorityFeePerGas := Some 1;
       td_maxFeePerGas := Some 2;
       td_nonce := Some 2 |} in
  createUnsignedUserOp (Sample.env false) [d] None (fresh Sample.account)
  = createUnsignedUserOp (Sample.env false) [d'] (Some 9) (fresh Sample.account).
Proof.
  intros d d'. apply build_reads_five_fields; reflexivity.
Defined.

(** ** The state of the account on chain *)

(** X11.  The deployment state is not cached.  On an instance whose
    address is cached, every call of [isAccountDeploied] asks [getCode]
    once, for that address, and answers by the code it is given: true
    exactly when there is code.  [getNonce] on an account without code
    answers zero after that one question; it does not touch the account
    contract. *)
Theorem deployment_is_asked_each_time env a m :
  cached a m ->
  isAccountDeploied env m
  = (match getCode env a with
     | inl reason => Err (Rejected reason)
     | inr code => Ok (has_code code)
     end, logged (Call_getCode a) m)
  /\ (getCode env a = inr (Hex0x "") ->
      getNonce env m = (Ok 0, logged (Call_getCode a) m)).
Proof.
  intros [Ha Ht].
  assert (Hd : isAccountDeploied env m
               = (match getCode env a with
                  | inl reason => Err (Rejected reason)
                  | inr code => Ok (has_code code)
                  end, logged (Call_getCode a) m)).
  { unfold isAccountDeploied, bind.
    rewrite (getAccountAddress_cached env m a Ha Ht). unfold ask.
    destruct (getCode env a) as [reason | [[| ch digits]]]; reflexivity. }
  split; [exact Hd |].
  intros Hcode. unfold getNonce, bind. rewrite Hd, Hcode. reflexivity.
Qed.

Lemma deployment_is_asked_each_time_witness :
  let m := snd (getAccountAddress (Sample.env false) (fresh Sample.account)) in
  let a := hex_string Sample.counterfactual in
  cached a m
  /\ fst (isAccountDeploied (Sample.env false) m) = Ok false
  /\ fst (isAccountDeploied (Sample.env true)
            (snd (isAccountDeploied (Sample.env false) m))) = Ok true.
Proof.
  intros m a.
  assert (Hc : cached a m) by (split; reflexivity).
  split; [exact Hc |]. split.
  - rewrite (proj1 (deployment_is_asked_each_time (Sample.env false) a m Hc)). reflexivity.
  - rewrite (proj1 (deployment_is_asked_each_time (Sample.env false) a m Hc)).
    unfold snd.
    assert (Hc' : cached a (logged (Call_getCode a) m)) by exact Hc.
    rewrite (proj1 (deployment_is_asked_each_time (Sample.env true) a _ Hc')). reflexivity.
Defined.

(** X13.  Whether an operation carries init-code follows the nonce, not
    the state of the chain.  With the nonce zero in the details, the
    operation of a successful build carries the init-code that
    [createInitCode] makes for the instance, whatever code the chain
    holds at the account address: an account that is deployed gets an
    init-code too.  With a nonce other than zero in the details it
    carries none, even for an address without code. *)
Theorem init_code_follows_the_nonce env d k n m op m' :
  td_nonce d = Some k ->
  createUnsignedUserOp env [d] n m = (Ok op, m') ->
  let u := partialUserOp op in
  nonce u = k
  /\ (k = 0 ->
      exists encoded,
        encodeFunctionData env (ecdsaOwnership (this m)) (moduleSetupData (this m)) 0
        = inr encoded
        /\ initCode u = concat [factory_literal; hex_string encoded])
  /\ (k <> 0 -> initCode u = "0x").
Proof.
  intros Hk H u. apply createUnsignedUserOp_Ok in H.
  destruct H as (d0 & Hd & m1 & m2 & m3 & m4 & m5 & initGas & chainId & feeData & a & g
                 & Henc & Hnonce & Hic & _).
  inversion Hd; subst d0; clear Hd.
  fold u in Henc, Hnonce, Hic. rewrite Hk in Hnonce.
  apply ret_Ok in Hnonce. destruct Hnonce as [Hn ->].
  pose proof (ev_config _ _ (steady_encodeUserOpCallDataAndGasLimit _ _ _ _ _ Henc)) as Hcfg.
  unfold config in Hcfg. inversion Hcfg as [[He Hf Hp Hm Ho]].
  split; [exact Hn |]. rewrite Hn in Hic. split.
  - intros Hz. rewrite Hz in Hic. cbn [Z.eqb] in Hic.
    apply createInitCode_Ok in Hic. destruct Hic as (encoded & Hencoded & Hvalue & _).
    exists encoded. split; [| exact Hvalue].
    unfold moduleSetupData in *. rewrite ?Hm, ?Ho in Hencoded. rewrite ?Hm, ?Ho.
    exact Hencoded.
  - intros Hnz. apply Z.eqb_neq in Hnz. rewrite Hnz in Hic.
    apply ret_Ok in Hic. apply Hic.
Qed.

Lemma init_code_follows_the_nonce_witness :
  let env := Sample.env true in
  td_nonce (Sample.details None (Some 0)) = Some 0
  /\ getCode env (hex_string Sample.counterfactual) = inr (Hex0x "6080604052")
  /\ exists op m',
       createUnsignedUserOp env [Sample.details None (Some 0)] None (fresh Sample.account)
       = (Ok op, m')
       /\ initCode (partialUserOp op)
          = concat [factory_literal;
                    hex_string (Sample.abi_address_bytes_uint "df20ffbc" Sample.ecdsaModule
                                  (moduleSetupData Sample.account) 0)].
Proof.
  intros env. split; [reflexivity |]. split; [reflexivity |].
  destruct (createUnsignedUserOp env [Sample.details None (Some 0)] None
              (fresh Sample.account)) as [[op | e] m'] eqn:E; [| vm_compute in E; discriminate E].
  exists op, m'. split; [reflexivity |].
  destruct (init_code_follows_the_nonce env (Sample.details None (Some 0)) 0 _ _ _ _
              eq_refl E) as (_ & Hzero & _).
  destruct (Hzero eq_refl) as (encoded & Hencoded & ->).
  cbn in Hencoded. inversion Hencoded. reflexivity.
Defined.

(** ** Strings: the init-code and the module setup data *)

Lemma substring_split n : forall s,
  (substring 0 n s ++ Js.substring_from n s)%string = s.
Proof.
  induction n as [| n IH]; intros s.
  - destruct s; reflexivity.
  - destruct s as [| c s]; [reflexivity |].
    change ((String c (substring 0 n s ++ Js.substring_from n s))%string = String c s).
    rewrite IH. reflexivity.
Qed.

Lemma substring_from_length n : forall s,
  String.length (Js.substring_from n s) = (String.length s - n)%nat.
Proof.
  induction n as [| n IH]; intros s.
  - rewrite Nat.sub_0_r. reflexivity.
  - destruct s as [| c s]; [reflexivity |].
    change (String.length (Js.substring_from n s) = (String.length s - n)%nat).
    apply IH.
Qed.

Lemma substring_to_the_end m : forall s,
  (String.length s <= m)%nat -> substring 0 m s = s.
Proof.
  induction m as [| m IH]; intros s Hl.
  - destruct s; [reflexivity | simpl in Hl; lia].
  - destruct s as [| c s]; [reflexivity |].
    cbn [substring]. rewrite IH; [reflexivity | simpl in Hl; lia].
Qed.

Lemma substring_is_substring_from n : forall m s,
  (String.length s <= n + m)%nat -> substring n m s = Js.substring_from n s.
Proof.
  induction n as [| n IH]; intros m s Hl.
  - apply substring_to_the_end. exact Hl.
  - destruct s as [| c s].
    + destruct m; reflexivity.
    + change (substring n m s = Js.substring_from n s). apply IH. simpl in Hl. lia.
Qed.

Lemma substring_prefix p x : substring 0 (String.length p) (p ++ x) = p.
Proof.
  induction p as [| c p IH].
  - destruct x; reflexivity.
  - change (String c (substring 0 (String.length p) (p ++ x)) = String c p).
    rewrite IH. reflexivity.
Qed.

Lemma substring_from_append p x : Js.substring_from (String.length p) (p ++ x) = x.
Proof.
  induction p as [| c p IH]; [reflexivity |].
  change (Js.substring_from (String.length p) (p ++ x) = x). exact IH.
Qed.

(** X12.  Splitting undoes concatenating.  [estimateCreationGas] cuts an
    init-code into its first 42 characters and the rest, and the two
    pieces put together are the init-code again.  For the init-code that
    [createInitCode] returns, the first piece is the factory literal and
    the second, behind its [0x], is the encoded deploy call as
    [encodeFunctionData] returned it: that is the call the estimator is
    asked about. *)
Theorem init_code_splits_back env index m ic m1 :
  createInitCode env index m = (Ok ic, m1) ->
  (Js.slice 0 42 ic ++ Js.substring_from 42 ic)%string = ic
  /\ exists encoded,
       encodeFunctionData env (ecdsaOwnership (this m)) (moduleSetupData (this m)) 0
       = inr encoded
       /\ creation_request ic
          = {| tx_from := None; tx_to := factory_literal; tx_data := hex_string encoded |}
       /\ estimateCreationGas env (Some ic) m1
          = ask (Call_estimateGas
                   {| tx_from := None; tx_to := factory_literal;
                      tx_data := hex_string encoded |})
                (estimateGas env
                   {| tx_from := None; tx_to := factory_literal;
                      tx_data := hex_string encoded |}) m1.
Proof.
  intros H. split; [apply substring_split |].
  pose proof (createInitCode_nonempty _ _ _ _ _ H) as (Hne & Hne2 & _).
  apply createInitCode_Ok in H. destruct H as (encoded & He & Hic & _).
  exists encoded. split; [exact He |].
  assert (Hreq : creation_request ic
                 = {| tx_from := None; tx_to := factory_literal;
                      tx_data := hex_string encoded |}).
  { rewrite Hic, concat_factory_literal. destruct encoded as [[| ch digits]]; reflexivity. }
  split; [exact Hreq |].
  rewrite <- Hreq.
  unfold estimateCreationGas, Js.truthy. rewrite negb_involutive.
  destruct (String.eqb_spec ic "") as [-> | _]; [contradiction Hne2; reflexivity |].
  destruct (String.eqb_spec ic "0x") as [-> | _]; [contradiction Hne; reflexivity |].
  reflexivity.
Qed.

Lemma init_code_splits_back_witness :
  exists ic m1,
    createInitCode (Sample.env false) None (fresh Sample.account) = (Ok ic, m1)
    /\ Js.slice 0 42 ic = factory_literal.
Proof.
  destruct (createInitCode (Sample.env false) None (fresh Sample.account))
    as [[ic | e] m1] eqn:E; [| vm_compute in E; discriminate E].
  exists ic, m1. split; [reflexivity |].
  destruct (init_code_splits_back _ _ _ _ _ E) as (_ & encoded & _ & Hreq & _).
  change (Js.slice 0 42 ic) with (tx_to (creation_request ic)). rewrite Hreq. reflexivity.
Defined.

(** X14.  The module setup data.  For an owner whose address is a string
    of 42 characters ([0x] and 40 digits), the data is [0x] and 72
    digits, that is 36 bytes: the selector [2ede3bc0] and twelve zero
    bytes, then the 20 bytes of the owner's address as the wallet spells
    them.  For any owner, the data starts with the selector and the
    zero bytes. *)
Theorem moduleSetupData_layout t :
  Js.slice 0 34 (moduleSetupData t) = "0x2ede3bc0000000000000000000000000"
  /\ (String.length (address (owner t)) = 42%nat ->
      String.length (moduleSetupData t) = 74%nat
      /\ Js.substring_from 34 (moduleSetupData t) = Js.substring_from 2 (address (owner t))
      /\ (Js.slice 0 2 (address (owner t)) = "0x" ->
          ("0x" ++ Js.substring_from 34 (moduleSetupData t))%string = address (owner t))).
Proof.
  unfold moduleSetupData.
  split; [apply (substring_prefix "0x2ede3bc0000000000000000000000000") |].
  intros Hl.
  assert (Hs : Js.slice 2 42 (address (owner t)) = Js.substring_from 2 (address (owner t))).
  { unfold Js.slice. apply substring_is_substring_from. rewrite Hl. simpl. lia. }
  rewrite Hs. split; [| split].
  - change (String.length
              ("0x2ede3bc0000000000000000000000000" ++ Js.substring_from 2 (address (owner t))))
      with (34 + String.length (Js.substring_from 2 (address (owner t))))%nat.
    rewrite substring_from_length, Hl. reflexivity.
  - apply (substring_from_append "0x2ede3bc0000000000000000000000000").
  - intros Hp. rewrite (substring_from_append "0x2ede3bc0000000000000000000000000").
    rewrite <- Hp. apply substring_split.
Qed.

Lemma moduleSetupData_layout_witness :
  String.length (address (owner Sample.account)) = 42%nat
  /\ String.length (moduleSetupData Sample.account) = 74%nat
  /\ ("0x" ++ Js.substring_from 34 (moduleSetupData Sample.account))%string
     = Sample.ownerAddress.
Proof.
  split; [reflexivity |].
  destruct (moduleSetupData_layout Sample.account) as [_ H].
  destruct (H eq_refl) as (Hlen & _ & Hback).
  split; [exact Hlen | exact (Hback eq_refl)].
Defined.

(** ** The build as a function of the replies *)

Lemma bind_run {A B} (c : M A) (k : A -> M B) m r m1 :
  c m = (r, m1) ->
  bind c k m = match r with Ok a => k a m1 | Err e => (Err e, m1) end.
Proof. intros H. unfold bind. rewrite H. destruct r; reflexivity. Qed.

Lemma ask_run {A} c (r : Reply A) m : ask c r m = (answer r, logged c m).
Proof. unfold ask. destruct r; reflexivity. Qed.

Lemma bind_assoc_run {A B C} (c : M A) (k0 : A -> M B) (k : B -> M C) m :
  bind (bind c k0) k m = bind c (fun x => bind (k0 x) k) m.
Proof. unfold bind. destruct (c m) as [[x | e] m1]; reflexivity. Qed.

Lemma bind_run_Ok {A B} (c : M A) (k : A -> M B) m x m1 :
  c m = (Ok x, m1) -> bind c k m = k x m1.
Proof. intros H. unfold bind. rewrite H. reflexivity. Qed.

Lemma bind_self_run {B} (k : BiconomySmartAccountV2 -> M B) m :
  bind self k m = k (this m) m.
Proof. reflexivity. Qed.

Lemma bind_ask_run {A B} c (r : Reply A) (k : A -> M B) m :
  bind (ask c r) k m
  = match answer r with
    | Ok x => k x (logged c m)
    | Err e => (Err e, logged c m)
    end.
Proof. unfold bind, ask. destruct r; reflexivity. Qed.

Lemma bind_unawaited_run {A B} (c : M A) (k : PromiseOrValue A -> M B) m r m1 :
  c m = (r, m1) -> bind (unawaited c) k m = k (Promise r) m1.
Proof. intros H. unfold bind, unawaited. rewrite H. reflexivity. Qed.

Lemma bind_deferred_run {A B} (c : M A) (k : PromiseOrValue A -> M B) m :
  bind (deferred c) k m = k (Promise (fst (c m))) m.
Proof. reflexivity. Qed.

Lemma warm_this a m m' : this m' = this m -> warm a m -> warm a m'.
Proof. unfold warm, cached. intros ->. auto. Qed.

Lemma warm_getAccountAddress env a m : warm a m -> getAccountAddress env m = (Ok a, m).
Proof. intros [[Ha Ht] _]. apply getAccountAddress_cached; assumption. Qed.

Lemma warm_getAccountContract env a m :
  warm a m -> getAccountContract env m = (Ok {| target := a |}, m).
Proof.
  intros [_ Hc]. unfold getAccountContract, bind, self. rewrite Hc. reflexivity.
Qed.

Section Warm.

Variable env : Env.
Variable a : string.

Lemma warm_encode d m :
  warm a m ->
  exists m', encodeUserOpCallDataAndGasLimit env (Some d) m = (encode_of env (this m) a d, m')
             /\ this m' = this m.
Proof.
  intros Hw.
  unfold encodeUserOpCallDataAndGasLimit, encodeExecute, encode_of, BigNumber.eq, BigNumber.from.
  cbn [read]. rewrite !bind_ret_run.
  rewrite ?bind_assoc_run, (bind_run_Ok _ _ _ _ _ (warm_getAccountContract env a m Hw)).
  cbv beta. rewrite ?bind_assoc_run, bind_ask_run.
  destruct (execute_ncC env {| target := a |} (to d) _ (data d)) as [reason | cd];
    cbn [answer and_then]; [eexists; split; reflexivity |].
  rewrite !bind_ret_run.
  destruct (nullish (gasLimit d) 0 =? 0).
  - assert (Hw1 : warm a (logged (Call_execute_ncC {| target := a |} (to d)
                                    (toHexString env (nullish (value d) 0)) (data d)) m))
      by exact Hw.
    rewrite ?bind_assoc_run, bind_self_run.
    rewrite ?bind_assoc_run, (bind_unawaited_run _ _ _ _ _ (warm_getAccountAddress env a _ Hw1)).
    unfold provider_estimateGas. cbn [tx_to tx_from tx_data await].
    rewrite ?bind_assoc_run, bind_ret_run, ?bind_assoc_run, bind_ask_run.
    unfold call_request. cbn [this logged].
    destruct (estimateGas env _) as [reason | g]; cbn [answer and_then];
      eexists; split; reflexivity.
  - rewrite bind_ret_run. cbn [and_then]. eexists; split; reflexivity.
Qed.

Lemma warm_nonce d m :
  warm a m ->
  exists m', match td_nonce d with Some k => ret k | None => getNonce env end m
             = (nonce_of env a d, m')
             /\ this m' = this m.
Proof.
  intros Hw. unfold nonce_of. destruct (td_nonce d) as [k |].
  - exists m. split; reflexivity.
  - unfold getNonce, isAccountDeploied.
    rewrite ?bind_assoc_run, (bind_run_Ok _ _ _ _ _ (warm_getAccountAddress env a m Hw)).
    cbv beta. rewrite ?bind_assoc_run, bind_ask_run.
    destruct (getCode env a) as [reason | code]; cbn [answer and_then];
      [eexists; split; reflexivity |].
    rewrite bind_ret_run.
    assert (Hc : (2 <? String.length (hex_string code))%nat = has_code code)
      by (destruct code as [[| ch digits]]; reflexivity).
    rewrite Hc. destruct (has_code code); cbn [negb].
    + assert (Hw1 : warm a (logged (Call_getCode a) m)) by exact Hw.
      rewrite (bind_run_Ok _ _ _ _ _ (warm_getAccountContract env a _ Hw1)).
      rewrite ask_run. eexists; split; reflexivity.
    + eexists; split; reflexivity.
Qed.

Lemma run_initCode k m :
  exists m', (if k =? 0 then createInitCode env None else ret "0x") m
             = (initCode_of env (this m) k, m')
             /\ this m' = this m.
Proof.
  unfold initCode_of. destruct (k =? 0).
  - unfold createInitCode. cbv zeta. rewrite bind_self_run, bind_ask_run.
    destruct (encodeFunctionData env _ _ 0); cbn [answer and_then];
      eexists; split; reflexivity.
  - exists m. split; reflexivity.
Qed.

Lemma run_creationGas ic m :
  exists m', estimateCreationGas env (Some ic) m = (creationGas_of env ic, m')
             /\ this m' = this m.
Proof.
  unfold estimateCreationGas, creationGas_of.
  destruct (negb (Js.truthy ic) || (ic =? "0x")%string).
  - exists m. split; reflexivity.
  - unfold provider_estimateGas. cbn [tx_to tx_from tx_data await].
    rewrite bind_ret_run, ask_run. eexists; split; reflexivity.
Qed.

Lemma run_getPreVerificationGas (u : PartialUserOp) m :
  sender u = Promise (Ok a) ->
  getPreVerificationGas env u m
  = (answer (calcPreVerificationGas env (resolved a u)),
     logged (Call_calcPreVerificationGas (resolved a u)) m).
Proof.
  intros Hs. unfold getPreVerificationGas, resolveProperties. rewrite Hs.
  cbn [await]. rewrite bind_assoc_run, !bind_ret_run. apply ask_run.
Qed.

(** On an instance with both caches filled, what a build returns is
    [operation_of]. *)
Lemma warm_build d n m :
  warm a m ->
  fst (createUnsignedUserOp env [d] n m) = operation_of env (this m) a d.
Proof.
  intros Hw. unfold createUnsignedUserOp, operation_of, getVerificationGasLimit,
    BigNumber.add, BigNumber.eq, BigNumber.from.
  cbn [List.length Nat.ltb Nat.leb nth_error read].
  destruct (warm_encode d m Hw) as (m1 & E1 & T1).
  rewrite (bind_run _ _ _ _ _ E1).
  destruct (encode_of env (this m) a d) as [[cd cgl] | e]; cbn [and_then]; [| reflexivity].
  rewrite bind_ret_run.
  assert (Hw1 : warm a m1) by (apply (warm_this a m m1 T1 Hw)).
  destruct (warm_nonce d m1 Hw1) as (m2 & E2 & T2).
  rewrite (bind_run _ _ _ _ _ E2).
  destruct (nonce_of env a d) as [nonce_ | e]; cbn [and_then]; [| reflexivity].
  destruct (run_initCode nonce_ m2) as (m3 & E3 & T3).
  rewrite (bind_run _ _ _ _ _ E3).
  replace (this m2) with (this m) by (rewrite T2, T1; reflexivity).
  destruct (initCode_of env (this m) nonce_) as [ic | e]; cbn [and_then]; [| reflexivity].
  destruct (run_creationGas ic m3) as (m4 & E4 & T4).
  rewrite (bind_run _ _ _ _ _ E4).
  destruct (creationGas_of env ic) as [initGas | e]; cbn [and_then]; [| reflexivity].
  rewrite bind_ret_run, bind_ask_run.
  destruct (getNetwork env) as [reason | chainId]; cbn [answer and_then]; [reflexivity |].
  rewrite bind_ask_run.
  destruct (getFeeDataFromParticle env chainId) as [reason | feeData];
    cbn [answer and_then]; [reflexivity |].
  assert (Hw4 : warm a (logged (Call_getFeeDataFromParticle chainId)
                          (logged Call_getNetwork m4))).
  { apply (warm_this a m); [| exact Hw]. cbn [this logged]. rewrite T4, T3, T2, T1.
    reflexivity. }
  rewrite (bind_unawaited_run _ _ _ _ _ (warm_getAccountAddress env a _ Hw4)).
  cbv zeta.
  match goal with
  | |- context [getPreVerificationGas env ?u] =>
      rewrite (bind_run _ _ _ _ _ (run_getPreVerificationGas u _ eq_refl))
  end.
  cbn [fst snd].
  destruct (calcPreVerificationGas env _) as [reason | g] eqn:Eg;
    cbn [answer and_then]; [reflexivity |].
  rewrite bind_deferred_run, run_getPreVerificationGas by reflexivity.
  rewrite Eg. reflexivity.
Qed.

End Warm.

Lemma contract_resolution env m :
  consistent (this m) ->
  exists m',
    getAccountContract env m
    = (and_then (address_of env (this m)) (fun a => Ok {| target := a |}), m')
    /\ config (this m') = config (this m)
    /\ forall a, address_of env (this m) = Ok a -> warm a m'.
Proof.
  intros Hi. destruct m as [t l]. cbn [this] in *.
  unfold getAccountContract, getAccountAddress, resolveAccountAddress, address_of,
    bind, self, ask, assign, ret.
  cbv beta iota delta [this calls].
  destruct (smartAccountContract t) as [c |] eqn:Ec.
  - destruct (Hi c Ec) as [Ha Ht]. rewrite Ha, Ht. cbn [and_then].
    destruct c as [tc]. cbn [target] in *.
    eexists. split; [reflexivity |]. split; [reflexivity |].
    intros a Heq. inversion Heq; subst a. repeat split; assumption.
  - assert (Hresolve :
      forall h, warm (hex_string h)
                  {| this := set_smartAccountContract {| target := hex_string h |}
                               (set_accountAddress (hex_string h) t);
                     calls := (l ++ [Call_getAddressForCounterFactualAccount
                                       (smartAccountFactoryContract t) (ecdsaOwnership t)
                                       (moduleSetupData t) 0])%list |}).
    { intros h. repeat split. apply truthy_hex_string. }
    destruct (accountAddress t) as [a0 |] eqn:Ea.
    + destruct (Js.truthy a0) eqn:Et.
      * cbn [and_then]. eexists. split; [reflexivity |]. split; [reflexivity |].
        intros a Heq. inversion Heq; subst a. repeat split; cbn; assumption.
      * destruct (getAddressForCounterFactualAccount env _ _ _ 0) as [reason | h];
          cbn [answer and_then this calls].
        -- eexists. split; [reflexivity |]. split; [reflexivity |]. discriminate.
        -- eexists. split; [reflexivity |]. split; [reflexivity |].
           intros a Heq. inversion Heq; subst a. apply Hresolve.
    + destruct (getAddressForCounterFactualAccount env _ _ _ 0) as [reason | h];
        cbn [answer and_then this calls].
      * eexists. split; [reflexivity |]. split; [reflexivity |]. discriminate.
      * eexists. split; [reflexivity |]. split; [reflexivity |].
        intros a Heq. inversion Heq; subst a. apply Hresolve.
Qed.

(** The first thing a build does that depends on the instance is to get
    the contract handle; from the machine that leaves, the build goes the
    same way. *)
Lemma build_after_the_handle env d n m c m' :
  getAccountContract env m = (Ok c, m') ->
  createUnsignedUserOp env [d] n m = createUnsignedUserOp env [d] n m'.
Proof.
  intros H.
  assert (H' : getAccountContract env m' = (Ok c, m')).
  { destruct (getAccountContract_spec _ _ _ _ H) as [_ Hc].
    destruct (Hc c eq_refl) as [Hsome _].
    unfold getAccountContract, bind, self. rewrite Hsome. reflexivity. }
  unfold createUnsignedUserOp, encodeUserOpCallDataAndGasLimit, encodeExecute.
  cbn [List.length Nat.ltb Nat.leb nth_error read].
  repeat (rewrite bind_assoc_run || rewrite bind_ret_run).
  rewrite (bind_run_Ok _ _ m _ _ H), (bind_run_Ok _ _ m' _ _ H'). reflexivity.
Qed.

Lemma build_without_the_handle env d n m e m' :
  getAccountContract env m = (Err e, m') ->
  createUnsignedUserOp env [d] n m = (Err e, m').
Proof.
  intros H.
  unfold createUnsignedUserOp, encodeUserOpCallDataAndGasLimit, encodeExecute.
  cbn [List.length Nat.ltb Nat.leb nth_error read].
  repeat (rewrite bind_assoc_run || rewrite bind_ret_run).
  rewrite (bind_run _ _ m _ _ H). reflexivity.
Qed.

Lemma operation_of_config env t t' a d :
  config t' = config t -> operation_of env t' a d = operation_of env t a d.
Proof.
  intros Hc. unfold config in Hc. inversion Hc as [[He Hf Hp Hm Ho]].
  unfold operation_of, encode_of, initCode_of, call_request, moduleSetupData.
  rewrite Hp, Hm, Ho. reflexivity.
Qed.

Lemma build_result env d n m :
  consistent (this m) ->
  fst (createUnsignedUserOp env [d] n m)
  = and_then (address_of env (this m)) (fun a => operation_of env (this m) a d).
Proof.
  intros Hi. destruct (contract_resolution env m Hi) as (m' & Hc & Hcfg & Hw).
  destruct (address_of env (this m)) as [a | e]; cbn [and_then] in *.
  - rewrite (build_after_the_handle _ _ _ _ _ _ Hc).
    rewrite (warm_build env a d n m' (Hw a eq_refl)).
    apply operation_of_config, Hcfg.
  - rewrite (build_without_the_handle _ _ _ _ _ _ Hc). reflexivity.
Qed.

Lemma address_of_cached env a m : cached a m -> address_of env (this m) = Ok a.
Proof. intros [Ha Ht]. unfold address_of. rewrite Ha, Ht. reflexivity. Qed.

(** After a successful build on a consistent instance the address the
    build used is cached. *)
Lemma build_caches_the_address env d n m op m1 a :
  consistent (this m) ->
  createUnsignedUserOp env [d] n m = (Ok op, m1) ->
  address_of env (this m) = Ok a ->
  cached a m1.
Proof.
  intros Hi H Ha. destruct (contract_resolution env m Hi) as (m' & Hc & _ & Hw).
  rewrite Ha in Hc. cbn [and_then] in Hc.
  rewrite (build_after_the_handle _ _ _ _ _ _ Hc) in H.
  destruct (Hw a Ha) as [[Hcache Ht] _].
  split; [| exact Ht].
  apply (ev_address _ _ (steady_createUnsignedUserOp _ _ _ _ _ _ H)); assumption.
Qed.

(** X15.  What a build returns is a function of the replies.  On a
    consistent instance, the result of a build for one transaction is
    the one [operation_of] computes from the details, the configuration
    of the instance, the replies of the collaborators, and the account
    address, which is the cached one or else the factory's answer: the
    build fails with the rejection of the first collaborator that fails
    on its path, and otherwise returns the operation assembled from the
    replies.  The log and the state of the caches have no other part in
    the result. *)
Theorem build_is_a_function_of_the_replies env d n m :
  consistent (this m) ->
  fst (createUnsignedUserOp env [d] n m)
  = and_then (address_of env (this m)) (fun a => operation_of env (this m) a d).
Proof.
  intros Hi. destruct (contract_resolution env m Hi) as (m' & Hc & Hcfg & Hw).
  destruct (address_of env (this m)) as [a | e]; cbn [and_then] in *.
  - rewrite (build_after_the_handle _ _ _ _ _ _ Hc).
    rewrite (warm_build env a d n m' (Hw a eq_refl)).
    apply operation_of_config, Hcfg.
  - rewrite (build_without_the_handle _ _ _ _ _ _ Hc). reflexivity.
Qed.

Lemma build_is_a_function_of_the_replies_witness :
  consistent (this (fresh Sample.account))
  /\ fst (createUnsignedUserOp (Sample.env false) [Sample.details None None] None
            (fresh Sample.account))
     = operation_of (Sample.env false) Sample.account (hex_string Sample.counterfactual)
         (Sample.details None None).
Proof.
  assert (Hc : consistent (this (fresh Sample.account))) by (intros c Hc; discriminate Hc).
  split; [exact Hc |].
  rewrite (build_is_a_function_of_the_replies _ _ _ _ Hc). reflexivity.
Defined.

(** X16.  Building again gives the same operation.  After a successful
    build on a consistent instance, a build for the same details in the
    same environment returns the same operation, whatever methods were
    called on the instance in between and against whatever environments,
    and whatever is passed as second argument. *)
Theorem rebuild_gives_the_same_operation env d n m op m1 :
  consistent (this m) ->
  createUnsignedUserOp env [d] n m = (Ok op, m1) ->
  forall script n',
    fst (createUnsignedUserOp env [d] n' (run script m1)) = Ok op.
Proof.
  intros Hi H script n'.
  pose proof (build_result env d n m Hi) as Hr. rewrite H in Hr. cbn [fst] in Hr.
  destruct (address_of env (this m)) as [a | e] eqn:Ea; cbn [and_then] in Hr;
    [| discriminate Hr].
  pose proof (build_caches_the_address _ _ _ _ _ _ _ Hi H Ea) as [Hcache Ht].
  pose proof (steady_createUnsignedUserOp _ _ _ _ _ _ H) as Hev1.
  pose proof (evolves_run script m1) as Hev2.
  pose proof (evolves_trans _ _ _ Hev1 Hev2) as Hev.
  rewrite (build_result env d n' (run script m1) (ev_consistent _ _ Hev Hi)).
  rewrite (address_of_cached env a (run script m1)).
  - cbn [and_then]. rewrite (operation_of_config _ _ _ _ _ (ev_config _ _ Hev)).
    symmetry. exact Hr.
  - split; [apply (ev_address _ _ Hev2); assumption | exact Ht].
Qed.

Lemma rebuild_gives_the_same_operation_witness :
  let script := [ (Sample.env true, Op_getNonce); (Sample.env true, Op_isAccountDeploied) ] in
  consistent (this (fresh Sample.account))
  /\ exists op m1,
       createUnsignedUserOp (Sample.env false) [Sample.details None None] None
         (fresh Sample.account) = (Ok op, m1)
       /\ fst (createUnsignedUserOp (Sample.env false) [Sample.details None None] (Some 5)
                 (run script m1)) = Ok op.
Proof.
  intros script.
  assert (Hc : consistent (this (fresh Sample.account))) by (intros c Hc; discriminate Hc).
  split; [exact Hc |].
  destruct (createUnsignedUserOp (Sample.env false) [Sample.details None None] None
              (fresh Sample.account)) as [[op | e] m1] eqn:E; [| vm_compute in E; discriminate E].
  exists op, m1. split; [reflexivity |].
  apply (rebuild_gives_the_same_operation _ _ _ _ _ _ Hc E).
Defined.

(** X17.  Where the fees come from.  In the operation of a successful
    build the two fee fields are those the fee service answers for the
    chain id the provider reports, passed on as they are (an absent one
    stays absent); the paymaster data and the signature are the empty
    byte string. *)
Theorem fees_come_from_the_fee_service env infos n m op m' :
  createUnsignedUserOp env infos n m = (Ok op, m') ->
  let u := partialUserOp op in
  exists chainId feeData,
    getNetwork env = inr chainId
    /\ getFeeDataFromParticle env chainId = inr feeData
    /\ maxFeePerGas u = fee_maxFeePerGas feeData
    /\ maxPriorityFeePerGas u = fee_maxPriorityFeePerGas feeData
    /\ paymasterAndData u = "0x"
    /\ signature op = "0x".
Proof.
  intros H u. apply createUnsignedUserOp_Ok in H.
  destruct H as (d & _ & m1 & m2 & m3 & m4 & m5 & initGas & chainId & feeData & a & g
                 & _ & _ & _ & _ & _ & Hnet & Hfee & Hmax & Hprio & Hpay & _ & _ & _ & _
                 & Hsig & _).
  exists chainId, feeData. repeat split; assumption.
Qed.

Lemma fees_come_from_the_fee_service_witness :
  exists op m',
    createUnsignedUserOp (Sample.env false) [Sample.details None None] None
      (fresh Sample.account) = (Ok op, m')
    /\ maxFeePerGas (partialUserOp op) = Some 30000000000.
Proof.
  destruct (createUnsignedUserOp (Sample.env false) [Sample.details None None] None
              (fresh Sample.account)) as [[op | e] m'] eqn:E; [| vm_compute in E; discriminate E].
  exists op, m'. split; [reflexivity |].
  destruct (fees_come_from_the_fee_service _ _ _ _ _ _ E)
    as (chainId & feeData & _ & Hfee & Hmax & _).
  rewrite Hmax. simpl in Hfee. inversion Hfee. reflexivity.
Defined.
